(** * Website intelligence engine: the analysis pipeline of the server

    A shallow embedding of the Express/Puppeteer server: the URL
    normalizer, the technology detector, the SEO scoring engine, the
    accessibility checker and the [/analyze] request handler with its
    tiered navigation and its page life cycle.

    Conventions.
    - JavaScript strings are [string]; [toLowerCase] is the ASCII case
      mapping (the signatures the detectors look for are ASCII).
    - Counts produced by [.length] are integers; they are kept in [Z] so
      that the statements also cover values a caller could pass by hand.
    - [null], [undefined] and a missing attribute are [None]; JavaScript
      truthiness of a string value is [truthy].
    - The browser, the network and the WHATWG URL parser are the platform:
      the outcome of every platform call is read from an environment
      record, and the handler is a function of that environment. *)

From Stdlib Require Import String Ascii List ZArith Lia Bool DecimalString.
#[local] Set Warnings "-register-all".
Import ListNotations.
Open Scope list_scope.
Open Scope string_scope.
Open Scope Z_scope.

(* ================================================================= *)
(** ** JavaScript string operations *)

(** [s.includes(sub)] *)
Fixpoint includes (s sub : string) : bool :=
  if prefix sub s then true
  else match s with
       | EmptyString => false
       | String _ s' => includes s' sub
       end.

(** [s.startsWith(p)] *)
Definition startsWith (s p : string) : bool := prefix p s.

Definition lower_ascii (c : ascii) : ascii :=
  let n := N_of_ascii c in
  if ((65 <=? n) && (n <=? 90))%N then ascii_of_N (n + 32) else c.

(** [s.toLowerCase()] on ASCII text *)
Fixpoint toLowerCase (s : string) : string :=
  match s with
  | EmptyString => EmptyString
  | String c s' => String (lower_ascii c) (toLowerCase s')
  end.

(** [arr.join(sep)] *)
Definition join (sep : string) (l : list string) : string := String.concat sep l.

(** Template interpolation of an integer, [`${n}`]. *)
Definition string_of_Z (n : Z) : string := NilZero.string_of_int (Z.to_int n).

(** Truthiness of a value that is either [null]/[undefined] or a string:
    the empty string is falsy. *)
Definition truthy (v : option string) : bool :=
  match v with
  | Some s => negb (s =? EmptyString)%string
  | None => false
  end.

(** [arr.push(x)] *)
Definition push {A : Type} (arr : list A) (x : A) : list A := (arr ++ [x])%list.

(** [[...new Set(arr)]]: the first occurrence of every value, in insertion
    order. *)
Fixpoint set_add (x : string) (seen : list string) : list string :=
  match seen with
  | [] => [x]
  | y :: seen' => if (x =? y)%string then seen else y :: set_add x seen'
  end.

Definition array_of_set (arr : list string) : list string :=
  fold_left (fun seen x => set_add x seen) arr [].

(* ================================================================= *)
(** ** SEO signal, layout signal and the scoring engine *)

Record OpenGraph := {
  og_title : option string;
  og_description : option string;
  og_image : option string
}.

Record SEO := {
  title : option string;
  titleLength : Z;
  metaDescription : option string;
  metaDescriptionLength : Z;
  h1Count : Z;
  h1Text : option string;
  imagesWithoutAlt : Z;
  canonical : option string;
  openGraph : OpenGraph
}.

Record Layout := {
  hasHeader : bool;
  hasNav : bool;
  hasFooter : bool;
  hasHero : bool;
  hasMain : bool;
  sectionCount : Z;
  articleCount : Z;
  formCount : Z;
  buttonCount : Z;
  imageCount : Z;
  linkCount : Z;
  bodyTextLength : Z
}.

Record ScoreResult := { score : Z; issues : list string }.

(** The two locals of [calculateSEOScore], [score] and [issues], threaded
    as a pair; [penalize] is the block [score -= pts; issues.push(msg)]. *)
Definition scoring : Type := (Z * list string)%type.

Definition penalize (st : scoring) (pts : Z) (msg : string) : scoring :=
  (fst st - pts, (snd st ++ [msg])%list).

(** The body of [calculateSEOScore] up to, and without, the final
    [Math.max(score, 0)]. *)
Definition seoDeductions (seo : SEO) (layout : Layout) : scoring :=
  let st : scoring := (100, []) in
  let st :=
    if negb (truthy (title seo)) then
      penalize st 20 "Missing page title"
    else if titleLength seo >? 60 then
      penalize st 5 "Title too long (>60 chars)"
    else st in
  let st :=
    if negb (truthy (metaDescription seo)) then
      penalize st 15 "Missing meta description"
    else if metaDescriptionLength seo >? 160 then
      penalize st 5 "Meta description too long (>160 chars)"
    else st in
  let st :=
    if h1Count seo =? 0 then penalize st 20 "No H1 heading found" else st in
  let st :=
    if h1Count seo >? 1 then penalize st 10 "Multiple H1 headings" else st in
  let st :=
    if imagesWithoutAlt seo >? 0 then
      penalize st (Z.min 10 (imagesWithoutAlt seo * 2))
        (string_of_Z (imagesWithoutAlt seo) ++ " images without alt text")
    else st in
  let st :=
    if negb (hasHeader layout) then penalize st 5 "No header element" else st in
  let st :=
    if negb (hasFooter layout) then penalize st 5 "No footer element" else st in
  let st :=
    if negb (truthy (canonical seo)) then penalize st 5 "No canonical URL" else st in
  let st :=
    if negb (truthy (og_title (openGraph seo)))
       && negb (truthy (og_description (openGraph seo)))
    then penalize st 10 "Missing Open Graph tags" else st in
  st.

Definition calculateSEOScore (seo : SEO) (layout : Layout) : ScoreResult :=
  let st := seoDeductions seo layout in
  {| score := Z.max (fst st) 0; issues := snd st |}.

(** The checks of the scoring engine, named, in the order the function
    performs them; used to state which deduction an issue stands for. *)
Inductive seoCheck :=
| TitleMissing | TitleTooLong | DescriptionMissing | DescriptionTooLong
| NoH1 | MultipleH1 | ImagesNoAlt | NoHeader | NoFooter | NoCanonical
| NoOpenGraph.

Definition seoCheck_eq_dec (c d : seoCheck) : {c = d} + {c <> d}.
Proof. decide equality. Defined.

Definition checkOrder : list seoCheck :=
  [TitleMissing; TitleTooLong; DescriptionMissing; DescriptionTooLong;
   NoH1; MultipleH1; ImagesNoAlt; NoHeader; NoFooter; NoCanonical;
   NoOpenGraph].

Definition checkFires (seo : SEO) (layout : Layout) (c : seoCheck) : bool :=
  match c with
  | TitleMissing => negb (truthy (title seo))
  | TitleTooLong => truthy (title seo) && (titleLength seo >? 60)
  | DescriptionMissing => negb (truthy (metaDescription seo))
  | DescriptionTooLong =>
      truthy (metaDescription seo) && (metaDescriptionLength seo >? 160)
  | NoH1 => h1Count seo =? 0
  | MultipleH1 => h1Count seo >? 1
  | ImagesNoAlt => imagesWithoutAlt seo >? 0
  | NoHeader => negb (hasHeader layout)
  | NoFooter => negb (hasFooter layout)
  | NoCanonical => negb (truthy (canonical seo))
  | NoOpenGraph =>
      negb (truthy (og_title (openGraph seo)))
      && negb (truthy (og_description (openGraph seo)))
  end.

Definition checkPoints (seo : SEO) (c : seoCheck) : Z :=
  match c with
  | TitleMissing => 20
  | TitleTooLong => 5
  | DescriptionMissing => 15
  | DescriptionTooLong => 5
  | NoH1 => 20
  | MultipleH1 => 10
  | ImagesNoAlt => Z.min 10 (imagesWithoutAlt seo * 2)
  | NoHeader => 5
  | NoFooter => 5
  | NoCanonical => 5
  | NoOpenGraph => 10
  end.

Definition checkMessage (seo : SEO) (c : seoCheck) : string :=
  match c with
  | TitleMissing => "Missing page title"
  | TitleTooLong => "Title too long (>60 chars)"
  | DescriptionMissing => "Missing meta description"
  | DescriptionTooLong => "Meta description too long (>160 chars)"
  | NoH1 => "No H1 heading found"
  | MultipleH1 => "Multiple H1 headings"
  | ImagesNoAlt => string_of_Z (imagesWithoutAlt seo) ++ " images without alt text"
  | NoHeader => "No header element"
  | NoFooter => "No footer element"
  | NoCanonical => "No canonical URL"
  | NoOpenGraph => "Missing Open Graph tags"
  end.

Definition firedChecks (seo : SEO) (layout : Layout) : list seoCheck :=
  filter (checkFires seo layout) checkOrder.

Definition sumZ (l : list Z) : Z := fold_right Z.add 0 l.

(** One check of the engine, as a step on the two locals. *)
Definition applyCheck (seo : SEO) (layout : Layout) (st : scoring)
    (c : seoCheck) : scoring :=
  if checkFires seo layout c
  then penalize st (checkPoints seo c) (checkMessage seo c)
  else st.

(** The points a group of checks takes. *)
Definition groupPoints (seo : SEO) (layout : Layout) (l : list seoCheck) : Z :=
  sumZ (map (checkPoints seo) (filter (checkFires seo layout) l)).

(** The signals of the scoring boundary case: the fields the case fixes
    are set, every other field is taken from [seo0] and [layout0]. *)
Definition boundarySEO (seo0 : SEO) : SEO :=
  {| title := None; titleLength := titleLength seo0;
     metaDescription := None;
     metaDescriptionLength := metaDescriptionLength seo0;
     h1Count := 0; h1Text := h1Text seo0; imagesWithoutAlt := 0;
     canonical := None;
     openGraph := {| og_title := None; og_description := None;
                     og_image := og_image (openGraph seo0) |} |}.

Definition boundaryLayout (layout0 : Layout) : Layout :=
  {| hasHeader := false; hasNav := hasNav layout0; hasFooter := false;
     hasHero := hasHero layout0; hasMain := hasMain layout0;
     sectionCount := sectionCount layout0;
     articleCount := articleCount layout0; formCount := formCount layout0;
     buttonCount := buttonCount layout0; imageCount := imageCount layout0;
     linkCount := linkCount layout0;
     bodyTextLength := bodyTextLength layout0 |}.

(* ================================================================= *)
(** ** The parsed document and the selections the checkers make *)

(** The tree [cheerio.load(html)] builds: elements with a lower-case tag
    name, attributes and children, and text nodes. *)
Inductive node :=
| Element (tag : string) (attrs : list (string * string)) (children : list node)
| Text (data : string).

(** A loaded document is the list of the root's children. *)
Definition document : Type := list node.

(** What a selection keeps of a matched element. *)
Record element := {
  tagName : string;
  attribs : list (string * string);
  childNodes : list node
}.

(** All elements below a node, in document order. *)
Fixpoint descendants (n : node) : list element :=
  match n with
  | Element t a cs =>
      {| tagName := t; attribs := a; childNodes := cs |}
        :: flat_map descendants cs
  | Text _ => []
  end.

Definition allElements (doc : document) : list element :=
  flat_map descendants doc.

(** [$(el).attr(name)] *)
Fixpoint attr (name : string) (a : list (string * string)) : option string :=
  match a with
  | [] => None
  | (k, v) :: a' => if (k =? name)%string then Some v else attr name a'
  end.

Definition hasAttr (name : string) (e : element) : bool :=
  match attr name (attribs e) with Some _ => true | None => false end.

(** [$("tag")] *)
Definition selectTag (doc : document) (t : string) : list element :=
  filter (fun e => (tagName e =? t)%string) (allElements doc).

(** [$("tag:not([a])")] *)
Definition selectTagWithout (doc : document) (t a : string) : list element :=
  filter (fun e => (tagName e =? t)%string && negb (hasAttr a e))
         (allElements doc).

(** [$(sel).attr(name)]: the attribute of the first matched element. *)
Definition attrOfFirst (sel : list element) (name : string) : option string :=
  match sel with
  | [] => None
  | e :: _ => attr name (attribs e)
  end.

(** The selector ['h1, h2, h3, h4, h5, h6'] keeps the elements with one of
    these six names, and [parseInt(el.tagName[1])] is the digit of the
    name. *)
Definition headingLevel (t : string) : option Z :=
  if (t =? "h1")%string then Some 1
  else if (t =? "h2")%string then Some 2
  else if (t =? "h3")%string then Some 3
  else if (t =? "h4")%string then Some 4
  else if (t =? "h5")%string then Some 5
  else if (t =? "h6")%string then Some 6
  else None.

(** The array [headingOrder] after the [.each] loop. *)
Definition headingOrder (doc : document) : list Z :=
  flat_map (fun e => match headingLevel (tagName e) with
                     | Some n => [n]
                     | None => []
                     end)
           (allElements doc).

(* ================================================================= *)
(** ** Accessibility checker *)

(** The loop [for (let i = 1; i < headingOrder.length; i++)] with its
    [break]; [fuel] bounds the number of iterations. *)
Fixpoint skipLoop (h : list Z) (i fuel : nat) : bool :=
  match fuel with
  | O => false
  | S fuel' =>
      if (i <? length h)%nat then
        if nth i h 0 - nth (i - 1) h 0 >? 1 then true
        else skipLoop h (S i) fuel'
      else false
  end.

Definition skippedHeading (h : list Z) : bool := skipLoop h 1 (length h).

Definition langIssue : string := "Missing lang attribute on <html>".
Definition altIssue (n : Z) : string := string_of_Z n ++ " images missing alt text".
Definition hrefIssue : string := "Links without href attribute".
Definition headingIssue : string := "Skipped heading levels detected".

(** The entry a check contributes: its text when it fires, nothing
    otherwise. *)
Definition entry (fires : bool) (text : string) : list string :=
  if fires then [text] else [].

(** A place of a heading sequence where the level rises by more than one
    from a heading to the next. *)
Definition jumpAt (h : list Z) (i : nat) : Prop :=
  (1 <= i < length h)%nat /\ nth i h 0 - nth (i - 1) h 0 > 1.

(** A document with the given headings, one after the other, in its body. *)
Definition headingTag (n : Z) : string := "h" ++ string_of_Z n.

Definition docWithHeadings (levels : list Z) : document :=
  [Element "html" [("lang", "en")]
     [Element "head" [] [];
      Element "body" []
        (map (fun n => Element (headingTag n) [] [Text "section"]) levels)]].

Definition checkAccessibility (doc : document) : list string :=
  let issues : list string := [] in
  let issues :=
    if negb (truthy (attrOfFirst (selectTag doc "html") "lang"))
    then push issues langIssue else issues in
  let imgWithoutAlt := Z.of_nat (length (selectTagWithout doc "img" "alt")) in
  let issues :=
    if imgWithoutAlt >? 0 then push issues (altIssue imgWithoutAlt)
    else issues in
  let issues :=
    if Z.of_nat (length (selectTagWithout doc "a" "href")) >? 0
    then push issues hrefIssue else issues in
  let issues :=
    if skippedHeading (headingOrder doc) then push issues headingIssue
    else issues in
  issues.

(* ================================================================= *)
(** ** Technology and tracker detection *)

(** The text [id="name"], as it is searched for in the lower-cased HTML. *)
Definition dquote : string := String (ascii_of_nat 34) EmptyString.
Definition idAttr (name : string) : string := "id=" ++ dquote ++ name ++ dquote.

(** The statement [if (c) arr.push(x);] *)
Definition pushIf (c : bool) (x : string) (arr : list string) : list string :=
  if c then push arr x else arr.

(** [detectTechStack] after its two page queries: [generator] is the
    content of the generator meta tag ([null] when the query fails) and
    [scripts] holds, for every script element, its [src] or the empty
    string. [techPushed] is the array [tech] as the function fills it,
    [detectTechStack] what it returns, the array of the set built from
    [tech]. *)
Definition techPushed (generator : option string) (scripts : list string)
    (html : string) : list string :=
  let tech : list string := [] in
  let lower := toLowerCase html in
  let tech := match generator with
              | Some g => pushIf (truthy generator) g tech
              | None => tech
              end in
  let scriptString := toLowerCase (join " " scripts) in
  let tech := pushIf (includes scriptString "react") "React" tech in
  let tech := pushIf (includes scriptString "vue") "Vue" tech in
  let tech := pushIf (includes scriptString "angular") "Angular" tech in
  let tech := pushIf (includes scriptString "_next") "Next.js" tech in
  let tech := pushIf (includes scriptString "nuxt") "Nuxt.js" tech in
  let tech := pushIf (includes scriptString "svelte") "Svelte" tech in
  let tech := pushIf (includes scriptString "bootstrap") "Bootstrap" tech in
  let tech := pushIf (includes scriptString "tailwind") "Tailwind CSS" tech in
  let tech := pushIf (includes scriptString "wp-content") "WordPress" tech in
  let tech := pushIf (includes scriptString "woocommerce") "WooCommerce" tech in
  let tech := pushIf (includes scriptString "shopify") "Shopify" tech in
  let tech := pushIf (includes scriptString "squarespace") "Squarespace" tech in
  let tech := pushIf (includes scriptString "wix") "Wix" tech in
  let tech := pushIf (includes lower (idAttr "root")) "React (likely)" tech in
  let tech := pushIf (includes lower (idAttr "__next")) "Next.js" tech in
  let tech := pushIf (includes lower (idAttr "__nuxt")) "Nuxt.js" tech in
  tech.

Definition detectTechStack (generator : option string) (scripts : list string)
    (html : string) : list string :=
  array_of_set (techPushed generator scripts html).

(** A page of a Next.js site: two scripts below [_next/static/] and the
    root container of the framework in the document. *)
Definition nextScripts : list string :=
  ["https://example.com/_next/static/chunks/main.js";
   "https://example.com/_next/static/chunks/webpack.js"].

(** [detectTrackers] *)
Definition detectTrackers (html : string) : list string :=
  let trackers : list string := [] in
  let lower := toLowerCase html in
  let trackers :=
    pushIf (includes lower "googletagmanager") "Google Tag Manager" trackers in
  let trackers :=
    pushIf (includes lower "google-analytics" || includes lower "ga.js")
           "Google Analytics" trackers in
  let trackers :=
    pushIf (includes lower "fbq(" || includes lower "facebook")
           "Facebook Pixel" trackers in
  let trackers := pushIf (includes lower "tiktok") "TikTok Pixel" trackers in
  let trackers := pushIf (includes lower "hotjar") "Hotjar" trackers in
  let trackers :=
    pushIf (includes lower "clarity.ms") "Microsoft Clarity" trackers in
  let trackers := pushIf (includes lower "segment.com") "Segment" trackers in
  let trackers := pushIf (includes lower "mixpanel") "Mixpanel" trackers in
  let trackers := pushIf (includes lower "intercom") "Intercom" trackers in
  trackers.

(* ================================================================= *)
(** ** URL records and the URL normalizer *)

(** The URL record of the WHATWG URL standard that the platform class
    [URL] wraps. [host] is the serialized host ([None] is a null host,
    [Some EmptyString] the empty host). *)
Inductive urlPath :=
| OpaquePath (s : string)
| ListPath (segments : list string).

Record URL := {
  scheme : string;
  username : string;
  password : string;
  host : option string;
  port : option Z;
  path : urlPath;
  query : option string;
  fragment : option string
}.

(** The special schemes of the standard with their default ports. *)
Definition defaultPort (sch : string) : option (option Z) :=
  if (sch =? "ftp")%string then Some (Some 21)
  else if (sch =? "file")%string then Some None
  else if (sch =? "http")%string then Some (Some 80)
  else if (sch =? "https")%string then Some (Some 443)
  else if (sch =? "ws")%string then Some (Some 80)
  else if (sch =? "wss")%string then Some (Some 443)
  else None.

Definition isSpecial (sch : string) : bool :=
  match defaultPort sch with Some _ => true | None => false end.

Definition isAlpha (c : ascii) : bool :=
  let n := N_of_ascii c in
  (((65 <=? n) && (n <=? 90)) || ((97 <=? n) && (n <=? 122)))%N.

Definition isDigit (c : ascii) : bool :=
  let n := N_of_ascii c in ((48 <=? n) && (n <=? 57))%N.

Definition isSchemeChar (c : ascii) : bool :=
  let n := N_of_ascii c in
  isAlpha c || isDigit c || (n =? 43)%N || (n =? 45)%N || (n =? 46)%N.

Definition isTabOrNewline (c : ascii) : bool :=
  let n := N_of_ascii c in ((n =? 9) || (n =? 10) || (n =? 13))%N.

Fixpoint removeTabNewline (s : string) : string :=
  match s with
  | EmptyString => EmptyString
  | String c s' =>
      if isTabOrNewline c then removeTabNewline s'
      else String c (removeTabNewline s')
  end.

(** Scheme state of the basic URL parser, run with a state override: the
    buffer collected up to the first [:], or failure. *)
Fixpoint schemeState (s : string) (buffer : string) : option string :=
  match s with
  | EmptyString => None
  | String c s' =>
      if isSchemeChar c then
        schemeState s' (buffer ++ String (lower_ascii c) EmptyString)
      else if (N_of_ascii c =? 58)%N then Some buffer
      else None
  end.

(** Scheme start state, with a state override. *)
Definition schemeStartState (s : string) : option string :=
  match s with
  | EmptyString => None
  | String c s' =>
      if isAlpha c then schemeState s' (String (lower_ascii c) EmptyString)
      else None
  end.

Definition includesCredentials (u : URL) : bool :=
  negb (username u =? EmptyString)%string
  || negb (password u =? EmptyString)%string.

Definition withScheme (u : URL) (sch : string) (p : option Z) : URL :=
  {| scheme := sch; username := username u; password := password u;
     host := host u; port := p; path := path u; query := query u;
     fragment := fragment u |}.

Definition optZ_eqb (a b : option Z) : bool :=
  match a, b with
  | Some x, Some y => x =? y
  | None, None => true
  | _, _ => false
  end.

(** The [protocol] setter: basic URL parse of [value] followed by [:],
    with the URL as [url] and scheme start state as state override. The
    setter leaves the URL unchanged when the parse fails and when one of
    the four guards of the scheme state returns early. *)
Definition setProtocol (u : URL) (value : string) : URL :=
  match schemeStartState (removeTabNewline (value ++ ":")) with
  | None => u
  | Some buffer =>
      if isSpecial (scheme u) && negb (isSpecial buffer) then u
      else if negb (isSpecial (scheme u)) && isSpecial buffer then u
      else if (includesCredentials u
               || match port u with Some _ => true | None => false end)
              && (buffer =? "file")%string then u
      else if (scheme u =? "file")%string
              && match host u with
                 | Some h => (h =? EmptyString)%string
                 | None => false
                 end then u
      else
        let p := match defaultPort buffer with
                 | Some d => if optZ_eqb (port u) d then None else port u
                 | None => port u
                 end in
        withScheme u buffer p
  end.

Definition serializePath (p : urlPath) : string :=
  match p with
  | OpaquePath s => s
  | ListPath segs => String.concat EmptyString (map (fun seg => "/" ++ seg) segs)
  end.

(** The URL serializer, which the [href] getter returns. *)
Definition href (u : URL) : string :=
  let output := scheme u ++ ":" in
  let output :=
    match host u with
    | Some h =>
        let output := output ++ "//" in
        let output :=
          if includesCredentials u then
            output ++ username u
                   ++ (if negb (password u =? EmptyString)%string
                       then ":" ++ password u else EmptyString)
                   ++ "@"
          else output in
        let output := output ++ h in
        match port u with
        | Some p => output ++ ":" ++ string_of_Z p
        | None => output
        end
    | None =>
        match path u with
        | ListPath (seg0 :: _ :: _) =>
            if (seg0 =? EmptyString)%string then output ++ "/." else output
        | _ => output
        end
    end in
  let output := output ++ serializePath (path u) in
  let output :=
    match query u with Some q => output ++ "?" ++ q | None => output end in
  match fragment u with Some f => output ++ "#" ++ f | None => output end.

(** [normalizeUrl]. [parse] is the constructor [new URL(input)] of the
    platform: [None] when it throws. *)
Definition normalizeUrl (parse : string -> option URL) (input : string) : string :=
  match parse input with
  | Some parsed =>
      let parsed := setProtocol parsed "https:" in
      href parsed
  | None => "https://" ++ input
  end.

(** What the parser of the standard returns on a string made of a
    non-special scheme, a colon and an opaque path free of [/] at its start
    and of [?], [#] and characters that are percent-encoded: used to run
    the normalizer on such inputs. *)
Definition opaqueURL (sch rest : string) : URL :=
  {| scheme := sch; username := EmptyString; password := EmptyString;
     host := None; port := None; path := OpaquePath rest;
     query := None; fragment := None |}.

(** What the parser returns on [scheme://host/seg1/.../segn] for a special
    scheme, a domain host and plain segments. *)
Definition hostURL (sch h : string) (p : option Z) (segs : list string) : URL :=
  {| scheme := sch; username := EmptyString; password := EmptyString;
     host := Some h; port := p; path := ListPath segs;
     query := None; fragment := None |}.

(* ================================================================= *)
(** ** Platform: browser, pages, errors *)

(** A JavaScript [Error] value. *)
Record Error := { message : string; stack : string }.

(** What an awaited platform call does: it resolves or it rejects. *)
Inductive outcome (A : Type) :=
| Done (a : A)
| Raise (e : Error).
Arguments Done {A} a.
Arguments Raise {A} e.

(** The [waitUntil] option of [page.goto]. *)
Inductive waitUntil := networkidle2 | domcontentloaded | load.

Record Metrics := {
  loadTime : Z;
  domContentLoaded : Z;
  responseTime : Z;
  transferSize : Z
}.

Record Finding := { findingType : string; findingMessage : string }.

(** Platform calls, responses and console lines, as the handler issues
    them. [Goto] and [Close] record whether the call resolved. *)
Inductive Event :=
| Launch
| NewPage (p : nat)
| SetUserAgent (p : nat) (ua : string)
| Goto (p : nat) (url : string) (w : waitUntil) (timeout : Z) (ok : bool)
| Delay (ms : Z)
| Screenshot (p : nat)
| Content (p : nat)
| Evaluate (p : nat)
| Close (p : nat) (ok : bool)
| Respond (code : Z)
| Log (line : string).

(** The [seo] member of the report: the SEO signal spread, then the score
    and the issues. *)
Record SeoReport := { seoSignal : SEO; seoScore : Z; seoIssues : list string }.

Record Meta := { analyzedAt : string; analysisTime : string }.

Record Report := {
  url : string;
  screenshot : string;
  techStack : list string;
  trackers : list string;
  layout : Layout;
  seo : SeoReport;
  performance : Metrics;
  accessibility : list string;
  security : list Finding;
  meta : Meta
}.

Inductive Body :=
| UrlRequired
| Analysis (result : Report)
| Failure (error userMessage technicalDetails : string).

Record Response := { status : Z; body : Body }.

(** The request body [{ targetUrl, quickMode }]. *)
Record Request := { targetUrl : option string; quickMode : bool }.

(** The environment of one run of the handler: the outcome of every
    platform call it can make, the extractors that only read the parsed
    document, and the clock. [closeResult n] is the outcome of the call of
    [page.close] that comes after [n] earlier ones. *)
Record Env := {
  urlParse : string -> option URL;
  launchResult : outcome unit;
  newPageResult : outcome unit;
  setUserAgentResult : outcome unit;
  gotoResult : waitUntil -> outcome unit;
  screenshotResult : outcome string;
  contentResult : outcome string;
  cheerioLoad : string -> document;
  extractLayout : document -> Layout;
  analyzeSEO : document -> SEO;
  checkSecurity : document -> string -> list Finding;
  generatorResult : option string;
  scriptsResult : outcome (list string);
  performanceResult : outcome Metrics;
  closeResult : nat -> outcome unit;
  stackFrames : string;
  startTime : Z;
  endTime : Z;
  isoNow : string
}.

(** The state a run of the handler reads and writes: the global [browser]
    handle, the page contexts open in the browser, the handler's locals
    [page] and [loadSuccess], and what the run has done so far. *)
Record State := {
  browser : bool;
  openPages : list nat;
  page : option nat;
  loadSuccess : bool;
  closeCalls : nat;
  trace : list Event;
  sent : list Response
}.

Definition setBrowser (b : bool) (st : State) : State :=
  {| browser := b; openPages := openPages st; page := page st;
     loadSuccess := loadSuccess st; closeCalls := closeCalls st;
     trace := trace st; sent := sent st |}.

Definition setOpenPages (l : list nat) (st : State) : State :=
  {| browser := browser st; openPages := l; page := page st;
     loadSuccess := loadSuccess st; closeCalls := closeCalls st;
     trace := trace st; sent := sent st |}.

Definition setPage (p : option nat) (st : State) : State :=
  {| browser := browser st; openPages := openPages st; page := p;
     loadSuccess := loadSuccess st; closeCalls := closeCalls st;
     trace := trace st; sent := sent st |}.

Definition setLoadSuccess (b : bool) (st : State) : State :=
  {| browser := browser st; openPages := openPages st; page := page st;
     loadSuccess := b; closeCalls := closeCalls st;
     trace := trace st; sent := sent st |}.

Definition setCloseCalls (n : nat) (st : State) : State :=
  {| browser := browser st; openPages := openPages st; page := page st;
     loadSuccess := loadSuccess st; closeCalls := n;
     trace := trace st; sent := sent st |}.

Definition record (e : Event) (st : State) : State :=
  {| browser := browser st; openPages := openPages st; page := page st;
     loadSuccess := loadSuccess st; closeCalls := closeCalls st;
     trace := push (trace st) e; sent := sent st |}.

Definition respond (r : Response) (st : State) : State :=
  {| browser := browser st; openPages := openPages st; page := page st;
     loadSuccess := loadSuccess st; closeCalls := closeCalls st;
     trace := push (trace st) (Respond (status r)); sent := push (sent st) r |}.

(** State and exceptions: a computation runs from a state to an outcome
    and a state; a rejection keeps the state reached. *)
Definition M (A : Type) : Type := State -> outcome A * State.

Definition ret {A : Type} (a : A) : M A := fun st => (Done a, st).

Definition bind {A B : Type} (m : M A) (k : A -> M B) : M B :=
  fun st => match m st with
            | (Done a, st') => k a st'
            | (Raise e, st') => (Raise e, st')
            end.

Definition throw {A : Type} (e : Error) : M A := fun st => (Raise e, st).

Definition tryCatch {A : Type} (m : M A) (handler : Error -> M A) : M A :=
  fun st => match m st with
            | (Done a, st') => (Done a, st')
            | (Raise e, st') => handler e st'
            end.

Definition modify (f : State -> State) : M unit := fun st => (Done tt, f st).

Definition gets {A : Type} (f : State -> A) : M A := fun st => (Done (f st), st).

(** An awaited platform call whose outcome the environment fixes. *)
Definition await {A : Type} (r : outcome A) : M A := fun st => (r, st).

Notation "x <- m ;; k" := (bind m (fun x => k))
  (at level 61, m at next level, right associativity).
Notation "m ;; k" := (bind m (fun _ => k))
  (at level 61, right associativity).

Definition console_log (line : string) : M unit := modify (record (Log line)).

(** [new Error(msg)]: the stack of a fresh error starts with its name and
    its message. *)
Definition newError (env : Env) (msg : string) : Error :=
  {| message := msg; stack := "Error: " ++ msg ++ stackFrames env |}.

(** [delay(ms)] *)
Definition delay (ms : Z) : M unit := modify (record (Delay ms)).

(** [initBrowser] *)
Definition initBrowser (env : Env) : M unit :=
  b <- gets browser ;;
  if negb b then
    modify (record Launch) ;;
    await (launchResult env) ;;
    modify (setBrowser true) ;;
    console_log "🟢 Puppeteer browser launched"
  else ret tt.

(** An identifier no open page has. *)
Definition freshPage (l : list nat) : nat := S (list_max l).

(** [browser.newPage()] *)
Definition newPage (env : Env) : M nat :=
  await (newPageResult env) ;;
  l <- gets openPages ;;
  let p := freshPage l in
  modify (setOpenPages (push l p)) ;;
  modify (record (NewPage p)) ;;
  ret p.

(** [page.setUserAgent(ua)] *)
Definition pageSetUserAgent (env : Env) (p : nat) (ua : string) : M unit :=
  modify (record (SetUserAgent p ua)) ;;
  await (setUserAgentResult env).

(** [page.goto(url, { waitUntil, timeout })] *)
Definition pageGoto (env : Env) (p : nat) (u : string) (w : waitUntil)
    (timeout : Z) : M unit :=
  match gotoResult env w with
  | Done _ => modify (record (Goto p u w timeout true))
  | Raise e => modify (record (Goto p u w timeout false)) ;; throw e
  end.

(** [page.screenshot(...)] followed by [toString('base64')] *)
Definition pageScreenshot (env : Env) (p : nat) : M string :=
  modify (record (Screenshot p)) ;;
  await (screenshotResult env).

(** [page.content()] *)
Definition pageContent (env : Env) (p : nat) : M string :=
  modify (record (Content p)) ;;
  await (contentResult env).

(** [page.close()]: a call that resolves removes the page from the open
    pages; a call that rejects leaves them as they are. *)
Definition pageClose (env : Env) (p : nat) : M unit :=
  n <- gets closeCalls ;;
  modify (setCloseCalls (S n)) ;;
  match closeResult env n with
  | Done _ =>
      l <- gets openPages ;;
      modify (setOpenPages (remove Nat.eq_dec p l)) ;;
      modify (record (Close p true))
  | Raise e => modify (record (Close p false)) ;; throw e
  end.

(** The asynchronous [detectTechStack(page, html)]: the generator query
    never rejects (its rejection is mapped to [null]), the script query
    can. *)
Definition detectTechStackOnPage (env : Env) (p : nat) (html : string)
    : M (list string) :=
  modify (record (Evaluate p)) ;;
  let generator := generatorResult env in
  modify (record (Evaluate p)) ;;
  scripts <- await (scriptsResult env) ;;
  ret (detectTechStack generator scripts html).

(** [getPerformanceMetrics(page)] *)
Definition getPerformanceMetrics (env : Env) (p : nat) : M Metrics :=
  modify (record (Evaluate p)) ;;
  await (performanceResult env).

(* ================================================================= *)
(** ** The [/analyze] handler *)

Definition newline : string := String (ascii_of_nat 10) EmptyString.

Definition userAgent : string :=
  "Mozilla/5.0 (Windows NT 10.0; Win64; x64) AppleWebKit/537.36 (KHTML, like Gecko) Chrome/121.0.0.0 Safari/537.36".

(** The message of the error thrown when the three strategies failed. *)
Definition unableToLoad (u : string) : string :=
  "Unable to load " ++ u
  ++ ". The site may be blocking automated access, experiencing issues, or taking too long to respond.".

(** The three nested [try]/[catch] blocks that load the page. *)
Definition navigate (env : Env) (p : nat) (u : string) (timeout : Z) : M unit :=
  modify (setLoadSuccess false) ;;
  tryCatch
    (console_log ("Loading " ++ u ++ " with networkidle2...") ;;
     pageGoto env p u networkidle2 timeout ;;
     modify (setLoadSuccess true) ;;
     console_log "✓ Loaded with networkidle2")
    (fun navError =>
       console_log "✗ networkidle2 failed, trying domcontentloaded..." ;;
       tryCatch
         (pageGoto env p u domcontentloaded timeout ;;
          modify (setLoadSuccess true) ;;
          console_log "✓ Loaded with domcontentloaded")
         (fun navError2 =>
            console_log "✗ domcontentloaded failed, trying load..." ;;
            tryCatch
              (pageGoto env p u load timeout ;;
               modify (setLoadSuccess true) ;;
               console_log "✓ Loaded with load event")
              (fun navError3 => throw (newError env (unableToLoad u))))).

(** The [try] block of the handler. *)
Definition analyzeTry (env : Env) (req : Request) : M unit :=
  initBrowser env ;;
  if negb (truthy (targetUrl req)) then
    modify (respond {| status := 400; body := UrlRequired |})
  else
    let targetUrl :=
      normalizeUrl (urlParse env)
        (match targetUrl req with Some raw => raw | None => EmptyString end) in
    console_log (newline ++ "🔍 Analyzing: " ++ targetUrl
                 ++ (if quickMode req then " (Quick Mode)" else EmptyString)) ;;
    p <- newPage env ;;
    modify (setPage (Some p)) ;;
    pageSetUserAgent env p userAgent ;;
    let timeout := if quickMode req then 30000 else 60000 in
    let waitTime := if quickMode req then 1000 else 3000 in
    navigate env p targetUrl timeout ;;
    console_log ("Waiting " ++ string_of_Z waitTime
                 ++ "ms for dynamic content...") ;;
    delay waitTime ;;
    console_log "📸 Capturing screenshot..." ;;
    screenshotBase64 <- pageScreenshot env p ;;
    console_log "✓ Screenshot captured" ;;
    html <- pageContent env p ;;
    let doc := cheerioLoad env html in
    let layout := extractLayout env doc in
    let seo := analyzeSEO env doc in
    techStack <- detectTechStackOnPage env p html ;;
    performance <- getPerformanceMetrics env p ;;
    let accessibility := checkAccessibility doc in
    let security := checkSecurity env doc html in
    let seoResult := calculateSEOScore seo layout in
    let analysisTime := endTime env - startTime env in
    let result :=
      {| url := targetUrl;
         screenshot := screenshotBase64;
         techStack := techStack;
         trackers := detectTrackers html;
         layout := layout;
         seo := {| seoSignal := seo; seoScore := score seoResult;
                   seoIssues := issues seoResult |};
         performance := performance;
         accessibility := accessibility;
         security := security;
         meta := {| analyzedAt := isoNow env;
                    analysisTime := string_of_Z analysisTime ++ "ms" |} |} in
    pageClose env p ;;
    modify (respond {| status := 200; body := Analysis result |}).

(** The error type and the user message the [catch] block derives from
    the message of the error. *)
Definition classifyError (msg : string) : string * string :=
  let userMessage := msg in
  let errorType := "Failed to analyze website" in
  if includes msg "Navigation timeout" || includes msg "timeout" then
    ("Timeout Error",
     "The website took too long to respond. This could be due to: slow server response, heavy page content, or network issues. Try again or test a different URL.")
  else if includes msg "net::ERR_NAME_NOT_RESOLVED" then
    ("DNS Error",
     "Could not resolve the domain name. Please check the URL and try again.")
  else if includes msg "net::ERR_CONNECTION_REFUSED" then
    ("Connection Refused",
     "The server refused the connection. The website might be down or blocking requests.")
  else if includes msg "net::ERR_CERT" then
    ("SSL Certificate Error",
     "SSL certificate issue detected. The website may have an invalid or expired certificate.")
  else (errorType, userMessage).

(** [error.stack || error.message] *)
Definition technicalDetails (error : Error) : string :=
  if negb (stack error =? EmptyString)%string then stack error
  else message error.

(** The [catch] block of the handler. *)
Definition analyzeCatch (env : Env) (error : Error) : M unit :=
  pg <- gets page ;;
  match pg with
  | Some p => pageClose env p
  | None => ret tt
  end ;;
  console_log ("ANALYSIS ERROR: " ++ message error) ;;
  let errorType := fst (classifyError (message error)) in
  let userMessage := snd (classifyError (message error)) in
  modify (respond
            {| status := 500;
               body := Failure errorType userMessage (technicalDetails error) |}).

(** The handler: its locals start undefined, the [try] block runs, and a
    rejection inside it runs the [catch] block. A rejection of the
    [catch] block is the outcome of the whole run. The calls of
    [page.close] are counted from the start of the run, so that the
    environment can tell the first call from a second one. *)
Definition analyze (env : Env) (req : Request) : M unit :=
  modify (setPage None) ;;
  modify (setCloseCalls 0) ;;
  tryCatch (analyzeTry env req) (analyzeCatch env).

(** *** Reading a trace *)








(** The [waitUntil] of the navigation attempts of a trace, in order, each
    with whether it resolved. *)
Fixpoint attempts (tr : list Event) : list (waitUntil * bool) :=
  match tr with
  | [] => []
  | Goto _ _ w _ ok :: tr' => (w, ok) :: attempts tr'
  | _ :: tr' => attempts tr'
  end.

(** The strategy of the attempt that resolved, if one did. *)
Definition strategyUsed (tr : list Event) : option waitUntil :=
  match filter snd (attempts tr) with
  | (w, _) :: _ => Some w
  | [] => None
  end.

Definition pagesOpened (tr : list Event) : list nat :=
  flat_map (fun e => match e with NewPage p => [p] | _ => [] end) tr.

(** The events a run added to the trace it started from. *)
Definition newEvents (st st' : State) : list Event :=
  skipn (length (trace st)) (trace st').

(** An environment in which everything resolves. *)
Definition quietEnv (parse : string -> option URL) (html : string)
    (doc : document) (lay : Layout) (s : SEO) : Env :=
  {| urlParse := parse;
     launchResult := Done tt;
     newPageResult := Done tt;
     setUserAgentResult := Done tt;
     gotoResult := fun _ => Done tt;
     screenshotResult := Done "/9j/4AAQ";
     contentResult := Done html;
     cheerioLoad := fun _ => doc;
     extractLayout := fun _ => lay;
     analyzeSEO := fun _ => s;
     checkSecurity := fun _ _ => [];
     generatorResult := None;
     scriptsResult := Done [];
     performanceResult :=
       Done {| loadTime := 0; domContentLoaded := 0; responseTime := 0;
               transferSize := 0 |};
     closeResult := fun _ => Done tt;
     stackFrames := EmptyString;
     startTime := 0;
     endTime := 1500;
     isoNow := "2024-01-01T00:00:00.000Z" |}.

(** The order in which the handler tries the strategies. *)
Definition strategyOrder : list waitUntil :=
  [networkidle2; domcontentloaded; load].

Definition resolves {A : Type} (r : outcome A) : bool :=
  match r with Done _ => true | Raise _ => false end.

Definition navigationTimeout : Error :=
  {| message := "Navigation timeout of 60000 ms exceeded";
     stack := "TimeoutError: Navigation timeout of 60000 ms exceeded" |}.

(** A site that only ever fires its load event, and one that blocks every
    navigation; everything else resolves. *)
Definition withGoto (env : Env) (g : waitUntil -> outcome unit) : Env :=
  {| urlParse := urlParse env;
     launchResult := launchResult env;
     newPageResult := newPageResult env;
     setUserAgentResult := setUserAgentResult env;
     gotoResult := g;
     screenshotResult := screenshotResult env;
     contentResult := contentResult env;
     cheerioLoad := cheerioLoad env;
     extractLayout := extractLayout env;
     analyzeSEO := analyzeSEO env;
     checkSecurity := checkSecurity env;
     generatorResult := generatorResult env;
     scriptsResult := scriptsResult env;
     performanceResult := performanceResult env;
     closeResult := closeResult env;
     stackFrames := stackFrames env;
     startTime := startTime env;
     endTime := endTime env;
     isoNow := isoNow env |}.

Definition loadOnly (w : waitUntil) : outcome unit :=
  match w with
  | load => Done tt
  | _ => Raise navigationTimeout
  end.

Definition blocked (w : waitUntil) : outcome unit := Raise navigationTimeout.

Definition exampleEnv : Env :=
  quietEnv (fun _ => Some (hostURL "http" "example.com" None [EmptyString]))
    "<html></html>" (docWithHeadings [1; 2])
    (boundaryLayout
       {| hasHeader := false; hasNav := false; hasFooter := false;
          hasHero := false; hasMain := false; sectionCount := 0;
          articleCount := 0; formCount := 0; buttonCount := 0;
          imageCount := 0; linkCount := 0; bodyTextLength := 0 |})
    {| title := Some "Example"; titleLength := 7;
       metaDescription := None; metaDescriptionLength := 0;
       h1Count := 1; h1Text := Some "Example"; imagesWithoutAlt := 0;
       canonical := None;
       openGraph := {| og_title := None; og_description := None;
                       og_image := None |} |}.

Definition exampleRequest : Request :=
  {| targetUrl := Some "http://example.com"; quickMode := true |}.

Definition initialState : State :=
  {| browser := false; openPages := []; page := None; loadSuccess := false;
     closeCalls := 0; trace := []; sent := [] |}.

(* ================================================================= *)
(** ** The detectors as rule tables *)

(** One rule of a detector: the signatures, any of which is enough, and
    the name the rule reports. *)
Definition rule : Type := (list string * string)%type.

(** [hay.includes(s1) || ... || hay.includes(sn)] *)
Fixpoint anyIncludes (hay : string) (sigs : list string) : bool :=
  match sigs with
  | [] => false
  | s :: rest =>
      match rest with
      | [] => includes hay s
      | _ => includes hay s || anyIncludes hay rest
      end
  end.

(** The names of the rules of a table that match, in the order of the
    table. *)
Definition matched (hay : string) (table : list rule) : list string :=
  map snd (filter (fun r => anyIncludes hay (fst r)) table).

Definition trackerSignatures : list rule :=
  [(["googletagmanager"], "Google Tag Manager");
   (["google-analytics"; "ga.js"], "Google Analytics");
   (["fbq("; "facebook"], "Facebook Pixel");
   (["tiktok"], "TikTok Pixel");
   (["hotjar"], "Hotjar");
   (["clarity.ms"], "Microsoft Clarity");
   (["segment.com"], "Segment");
   (["mixpanel"], "Mixpanel");
   (["intercom"], "Intercom")].

Definition scriptSignatures : list rule :=
  [(["react"], "React"); (["vue"], "Vue"); (["angular"], "Angular");
   (["_next"], "Next.js"); (["nuxt"], "Nuxt.js"); (["svelte"], "Svelte");
   (["bootstrap"], "Bootstrap"); (["tailwind"], "Tailwind CSS");
   (["wp-content"], "WordPress"); (["woocommerce"], "WooCommerce");
   (["shopify"], "Shopify"); (["squarespace"], "Squarespace");
   (["wix"], "Wix")].

Definition rootSignatures : list rule :=
  [([idAttr "root"], "React (likely)");
   ([idAttr "__next"], "Next.js");
   ([idAttr "__nuxt"], "Nuxt.js")].

(** A rule with its test evaluated on a text. *)
Definition evaluated (hay : string) (r : rule) : bool * string :=
  (anyIncludes hay (fst r), snd r).

(** The statements [if (c) arr.push(x);] of a list of evaluated rules,
    run one after the other. *)
Definition pushAll (rules : list (bool * string)) (arr : list string)
    : list string :=
  fold_left (fun a r => pushIf (fst r) (snd r) a) rules arr.

(** The SEO signal with another number of images without alt text. *)
Definition withImages (n : Z) (s : SEO) : SEO :=
  {| title := title s; titleLength := titleLength s;
     metaDescription := metaDescription s;
     metaDescriptionLength := metaDescriptionLength s;
     h1Count := h1Count s; h1Text := h1Text s; imagesWithoutAlt := n;
     canonical := canonical s; openGraph := openGraph s |}.

(** The heading scan read pair by pair. *)
Fixpoint pairwiseJump (h : list Z) : bool :=
  match h with
  | a :: (b :: _) as t => (b - a >? 1) || pairwiseJump t
  | _ => false
  end.

Definition timeoutMessage : string :=
  "The website took too long to respond. This could be due to: slow server response, heavy page content, or network issues. Try again or test a different URL.".

(* ================================================================= *)
(** ** More readers of a trace *)

(** The URL and the timeout of every [page.goto] of a trace. *)
Definition gotoTargets (tr : list Event) : list (string * Z) :=
  flat_map (fun e => match e with
                     | Goto _ u _ t _ => [(u, t)]
                     | _ => []
                     end) tr.

(** The durations of the [delay] calls of a trace. *)
Definition delaysOf (tr : list Event) : list Z :=
  flat_map (fun e => match e with Delay ms => [ms] | _ => [] end) tr.

(** The number of [puppeteer.launch] calls of a trace. *)
Definition launches (tr : list Event) : nat :=
  length (filter (fun e => match e with Launch => true | _ => false end) tr).

(** The platform calls made on pages, by kind, without the page. *)
Inductive callKind := CScreenshot | CContent | CEvaluate.

Definition pageCalls (tr : list Event) : list callKind :=
  flat_map (fun e => match e with
                     | Screenshot _ => [CScreenshot]
                     | Content _ => [CContent]
                     | Evaluate _ => [CEvaluate]
                     | _ => []
                     end) tr.

(** The first rejection among the calls the handler makes between the
    navigation and the closing of the page, in the order it makes them. *)
Definition extractionError (env : Env) : option Error :=
  match screenshotResult env with
  | Raise e => Some e
  | Done _ =>
      match contentResult env with
      | Raise e => Some e
      | Done _ =>
          match scriptsResult env with
          | Raise e => Some e
          | Done _ =>
              match performanceResult env with
              | Raise e => Some e
              | Done _ => None
              end
          end
      end
  end.

(** The response of the [catch] block to an error. *)
Definition failureResponse (e : Error) : Response :=
  {| status := 500;
     body := Failure (fst (classifyError (message e)))
               (snd (classifyError (message e))) (technicalDetails e) |}.

(* ================================================================= *)
(** ** The client: scan history and comparison *)

(** The Lighthouse scores a history entry keeps; a score that is missing,
    null or zero is kept as null. *)
Record LighthouseScores := {
  lhPerformance : option Z;
  lhAccessibility : option Z;
  lhSeo : option Z;
  lhBestPractices : option Z;
  lhPwa : option Z
}.

(** The response of the server as the client holds it. *)
Record ScanData := {
  scanUrl : string;
  scanScreenshot : option string;
  scanTechStack : list string;
  scanTrackers : list string;
  scanLayout : Layout;
  scanSeo : SeoReport;
  scanPerformance : Metrics;
  scanAccessibility : list string;
  scanSecurity : list Finding;
  scanMeta : Meta;
  scanQuickMode : option bool;
  scanLighthouse : option LighthouseScores
}.

Record Scores := {
  seoOf : Z;
  loadTimeOf : Z;
  accessibilityOf : Z;
  securityOf : Z;
  lighthouseOf : option LighthouseScores
}.

Record HistoryEntry := {
  entryId : Z;
  entryUrl : string;
  entryTimestamp : string;
  entryScores : Scores;
  entryQuickMode : option bool;
  fullData : ScanData
}.

Definition MAX_HISTORY : nat := 50.

(** What [localStorage] holds under the history key: nothing, the empty
    string, a text that is not JSON, JSON that is not an array, or the
    JSON of a history. An array is taken to hold entries as
    [saveToHistory] writes them; such entries hold JSON data only, so that
    [JSON.parse] gives back what [JSON.stringify] was given. *)
Inductive stored :=
| NoItem
| EmptyItem
| Unparsable
| NotAnArray
| HistoryItem (h : list HistoryEntry).

(** The value [getHistory] returns. *)
Inductive historyValue :=
| Arr (h : list HistoryEntry)
| NotArr.

(** [getHistory]: a missing or empty item is the empty history, and so is
    a text on which [JSON.parse] throws. *)
Definition getHistory (s : stored) : historyValue :=
  match s with
  | NoItem | EmptyItem => Arr []
  | Unparsable => Arr []
  | NotAnArray => NotArr
  | HistoryItem h => Arr h
  end.

(** [x || null] on a score *)
Definition orNull (x : option Z) : option Z :=
  match x with
  | Some n => if n =? 0 then None else Some n
  | None => None
  end.

(** [{ ...data, screenshot: null }] *)
Definition withoutScreenshot (d : ScanData) : ScanData :=
  {| scanUrl := scanUrl d; scanScreenshot := None;
     scanTechStack := scanTechStack d; scanTrackers := scanTrackers d;
     scanLayout := scanLayout d; scanSeo := scanSeo d;
     scanPerformance := scanPerformance d;
     scanAccessibility := scanAccessibility d;
     scanSecurity := scanSecurity d; scanMeta := scanMeta d;
     scanQuickMode := scanQuickMode d; scanLighthouse := scanLighthouse d |}.

(** The entry [saveToHistory] builds; [now] is [Date.now()]. *)
Definition historyEntry (now : Z) (data : ScanData) : HistoryEntry :=
  {| entryId := now;
     entryUrl := scanUrl data;
     entryTimestamp := analyzedAt (scanMeta data);
     entryScores :=
       {| seoOf := seoScore (scanSeo data);
          loadTimeOf := loadTime (scanPerformance data);
          accessibilityOf := Z.of_nat (length (scanAccessibility data));
          securityOf := Z.of_nat (length (scanSecurity data));
          lighthouseOf :=
            match scanLighthouse data with
            | Some lh =>
                Some {| lhPerformance := orNull (lhPerformance lh);
                        lhAccessibility := orNull (lhAccessibility lh);
                        lhSeo := orNull (lhSeo lh);
                        lhBestPractices := orNull (lhBestPractices lh);
                        lhPwa := orNull (lhPwa lh) |}
            | None => None
            end |};
     entryQuickMode := scanQuickMode data;
     fullData := withoutScreenshot data |}.

(** [saveToHistory]. [fits h] tells whether [localStorage.setItem] accepts
    the JSON of [h]; when it throws, and when the stored value is not an
    array so that [unshift] throws, the [catch] block leaves the storage
    as it is. *)
Definition saveToHistory (fits : list HistoryEntry -> bool) (now : Z)
    (data : ScanData) (s : stored) : stored :=
  match getHistory s with
  | Arr history =>
      let entry := historyEntry now data in
      let history := entry :: history in
      let history :=
        if (MAX_HISTORY <? length history)%nat
        then firstn MAX_HISTORY history else history in
      if fits history then HistoryItem history else s
  | NotArr => s
  end.

(** [deleteFromHistory] *)
Definition deleteFromHistory (fits : list HistoryEntry -> bool) (id : Z)
    (s : stored) : stored :=
  match getHistory s with
  | Arr history =>
      let history := filter (fun entry => negb (entryId entry =? id)) history in
      if fits history then HistoryItem history else s
  | NotArr => s
  end.

(** [clearHistory], after the user answered the confirmation. *)
Definition clearHistory (confirmed : bool) (s : stored) : stored :=
  if confirmed then NoItem else s.

(** [loadFromHistory]: the data it hands to [displayResults], if any. *)
Definition loadFromHistory (id : Z) (s : stored) : option ScanData :=
  match getHistory s with
  | Arr history =>
      match find (fun e => entryId e =? id) history with
      | Some entry => Some (fullData entry)
      | None => None
      end
  | NotArr => None
  end.

(** The calls that write the history, and a sequence of them run on a
    storage. *)
Inductive historyOp :=
| Save (now : Z) (data : ScanData)
| Delete (id : Z)
| Clear (confirmed : bool).

Definition applyOp (fits : list HistoryEntry -> bool) (s : stored)
    (o : historyOp) : stored :=
  match o with
  | Save now data => saveToHistory fits now data s
  | Delete id => deleteFromHistory fits id s
  | Clear confirmed => clearHistory confirmed s
  end.

Definition applyOps (fits : list HistoryEntry -> bool) (ops : list historyOp)
    (s : stored) : stored :=
  fold_left (applyOp fits) ops s.

(** The entries a storage holds. *)
Definition historyOf (s : stored) : list HistoryEntry :=
  match getHistory s with
  | Arr h => h
  | NotArr => []
  end.

Definition isConfirmedClear (o : historyOp) : bool :=
  match o with
  | Clear true => true
  | _ => false
  end.

(** [handleCompareSelection]: [checked] is the state of the checkbox of
    [id], the list is [selectedForCompare]. *)
Definition handleCompareSelection (checked : bool) (id : Z)
    (selectedForCompare : list Z) : list Z :=
  if checked then
    let selectedForCompare :=
      if (2 <=? length selectedForCompare)%nat
      then tl selectedForCompare else selectedForCompare in
    push selectedForCompare id
  else filter (fun i => negb (i =? id)) selectedForCompare.

Inductive winner := WinnerA | WinnerB | Tie.

(** Truthiness of a number that may be null. *)
Definition truthyNumber (x : option Z) : bool :=
  match x with
  | Some n => negb (n =? 0)
  | None => false
  end.

Definition performanceOf (s : Scores) : option Z :=
  match lighthouseOf s with
  | Some lh => lhPerformance lh
  | None => None
  end.

Definition numberOf (x : option Z) : Z :=
  match x with Some n => n | None => 0 end.

(** [determineWinner], on the [scores] of the two history entries; the
    pair is [(score1, score2)]. The numbers are only compared with one
    another. *)
Definition determineWinner (scan1 scan2 : Scores) : winner :=
  let tally : nat * nat := (0, 0)%nat in
  let tally :=
    if seoOf scan1 >? seoOf scan2 then (S (fst tally), snd tally)
    else if seoOf scan2 >? seoOf scan1 then (fst tally, S (snd tally))
    else tally in
  let tally :=
    if loadTimeOf scan1 <? loadTimeOf scan2 then (S (fst tally), snd tally)
    else if loadTimeOf scan2 <? loadTimeOf scan1
         then (fst tally, S (snd tally))
         else tally in
  let tally :=
    if accessibilityOf scan1 <? accessibilityOf scan2
    then (S (fst tally), snd tally)
    else if accessibilityOf scan2 <? accessibilityOf scan1
         then (fst tally, S (snd tally))
         else tally in
  let tally :=
    if truthyNumber (performanceOf scan1) && truthyNumber (performanceOf scan2)
    then
      if numberOf (performanceOf scan1) >? numberOf (performanceOf scan2)
      then (S (fst tally), snd tally)
      else if numberOf (performanceOf scan2) >? numberOf (performanceOf scan1)
           then (fst tally, S (snd tally))
           else tally
    else tally in
  if (snd tally <? fst tally)%nat then WinnerA
  else if (fst tally <? snd tally)%nat then WinnerB
  else Tie.

Definition swapWinner (w : winner) : winner :=
  match w with
  | WinnerA => WinnerB
  | WinnerB => WinnerA
  | Tie => Tie
  end.

(** A scan as the server of this repository answers it, and a storage
    without a quota. *)
Definition exampleScan : ScanData :=
  {| scanUrl := "https://example.com/";
     scanScreenshot := Some "/9j/4AAQ";
     scanTechStack := ["Next.js"];
     scanTrackers := [];
     scanLayout := extractLayout exampleEnv [];
     scanSeo := {| seoSignal := analyzeSEO exampleEnv [];
                   seoScore := 60;
                   seoIssues := ["Missing meta description"] |};
     scanPerformance := {| loadTime := 1200; domContentLoaded := 800;
                           responseTime := 150; transferSize := 310 |};
     scanAccessibility := ["Links without href attribute"];
     scanSecurity := [];
     scanMeta := {| analyzedAt := "2024-01-01T00:00:00.000Z";
                    analysisTime := "1500ms" |};
     scanQuickMode := None;
     scanLighthouse := None |}.

Definition unlimited (h : list HistoryEntry) : bool := true.

(* ================================================================= *)
(** * Properties *)

(* ----------------------------------------------------------------- *)
(** ** Scoring engine *)

Section Scoring.

Variables (seo : SEO) (layout : Layout).

(** The two title checks are the first [if]/[else if] of the function. *)
Lemma title_steps (st : scoring) :
  applyCheck seo layout (applyCheck seo layout st TitleMissing) TitleTooLong =
  if negb (truthy (title seo)) then penalize st 20 "Missing page title"
  else if titleLength seo >? 60 then penalize st 5 "Title too long (>60 chars)"
  else st.
Proof. unfold applyCheck; simpl; destruct (truthy (title seo)); reflexivity. Qed.

Lemma description_steps (st : scoring) :
  applyCheck seo layout (applyCheck seo layout st DescriptionMissing) DescriptionTooLong =
  if negb (truthy (metaDescription seo))
  then penalize st 15 "Missing meta description"
  else if metaDescriptionLength seo >? 160
       then penalize st 5 "Meta description too long (>160 chars)"
       else st.
Proof.
  unfold applyCheck; simpl; destruct (truthy (metaDescription seo)); reflexivity.
Qed.

(** The function body is the eleven checks applied in [checkOrder]. *)
Lemma seoDeductions_fold :
  seoDeductions seo layout = fold_left (applyCheck seo layout) checkOrder (100, []).
Proof.
  unfold seoDeductions, checkOrder; cbn [fold_left].
  rewrite title_steps, description_steps.
  reflexivity.
Qed.

Lemma fold_applyCheck (l : list seoCheck) (st : scoring) :
  fold_left (applyCheck seo layout) l st =
  (fst st - sumZ (map (checkPoints seo) (filter (checkFires seo layout) l)),
   (snd st ++ map (checkMessage seo) (filter (checkFires seo layout) l))%list).
Proof.
  revert st; induction l as [|c l IH]; intros [sc iss]; simpl.
  - rewrite app_nil_r; f_equal; lia.
  - unfold applyCheck at 2.
    destruct (checkFires seo layout c); rewrite IH; simpl.
    + rewrite <- app_assoc; simpl; f_equal; lia.
    + reflexivity.
Qed.

Lemma seoDeductions_fired :
  seoDeductions seo layout =
  (100 - sumZ (map (checkPoints seo) (firedChecks seo layout)),
   map (checkMessage seo) (firedChecks seo layout)).
Proof. rewrite seoDeductions_fold, fold_applyCheck; reflexivity. Qed.

(** A check that fires costs at least one point. *)
Lemma fired_points_pos (c : seoCheck) :
  checkFires seo layout c = true -> 0 < checkPoints seo c.
Proof.
  destruct c; simpl; intros H; lia.
Qed.

Lemma sumZ_fired_pos (l : list seoCheck) :
  filter (checkFires seo layout) l <> [] ->
  0 < sumZ (map (checkPoints seo) (filter (checkFires seo layout) l)).
Proof.
  induction l as [|c l IH]; simpl; [congruence|].
  destruct (checkFires seo layout c) eqn:Hc; [|exact IH].
  intros _; simpl.
  pose proof (fired_points_pos c Hc).
  destruct (filter (checkFires seo layout) l) eqn:Hf.
  - simpl; lia.
  - assert (0 < sumZ (map (checkPoints seo) (s :: l0))) by (apply IH; congruence).
    lia.
Qed.

Lemma groupPoints_app (l1 l2 : list seoCheck) :
  groupPoints seo layout (l1 ++ l2) = groupPoints seo layout l1 + groupPoints seo layout l2.
Proof.
  unfold groupPoints; rewrite filter_app, map_app.
  induction (map (checkPoints seo) (filter (checkFires seo layout) l1));
    simpl; lia.
Qed.

Lemma groupPoints_one (c : seoCheck) :
  0 <= groupPoints seo layout [c] <= Z.max 0 (checkPoints seo c).
Proof.
  unfold groupPoints; simpl.
  destruct (checkFires seo layout c) eqn:Hc; simpl.
  - pose proof (fired_points_pos c Hc); lia.
  - lia.
Qed.

Lemma title_group : 0 <= groupPoints seo layout [TitleMissing; TitleTooLong] <= 20.
Proof.
  unfold groupPoints; simpl.
  destruct (truthy (title seo)); simpl;
    [destruct (titleLength seo >? 60)|]; simpl; lia.
Qed.

Lemma description_group :
  0 <= groupPoints seo layout [DescriptionMissing; DescriptionTooLong] <= 15.
Proof.
  unfold groupPoints; simpl.
  destruct (truthy (metaDescription seo)); simpl;
    [destruct (metaDescriptionLength seo >? 160)|]; simpl; lia.
Qed.

Lemma h1_group : 0 <= groupPoints seo layout [NoH1; MultipleH1] <= 20.
Proof.
  unfold groupPoints; simpl.
  destruct (Z.eqb_spec (h1Count seo) 0) as [E|E].
  - rewrite E; simpl; lia.
  - destruct (h1Count seo >? 1); simpl; lia.
Qed.

(** The deductions add up to between 0 and 90 points. *)
Lemma deductions_bounded :
  0 <= sumZ (map (checkPoints seo) (firedChecks seo layout)) <= 90.
Proof.
  change (sumZ (map (checkPoints seo) (firedChecks seo layout)))
    with (groupPoints seo layout
            ([TitleMissing; TitleTooLong]
               ++ [DescriptionMissing; DescriptionTooLong]
               ++ [NoH1; MultipleH1] ++ [ImagesNoAlt] ++ [NoHeader]
               ++ [NoFooter] ++ [NoCanonical] ++ [NoOpenGraph])).
  rewrite !groupPoints_app.
  pose proof title_group. pose proof description_group. pose proof h1_group.
  pose proof (groupPoints_one ImagesNoAlt) as Hi.
  pose proof (groupPoints_one NoHeader) as Hh.
  pose proof (groupPoints_one NoFooter) as Hf.
  pose proof (groupPoints_one NoCanonical) as Hc.
  pose proof (groupPoints_one NoOpenGraph) as Ho.
  simpl checkPoints in *.
  lia.
Qed.

End Scoring.

(** No fixed issue text ends like the text of the image check. *)
Ltac peel_suffix H :=
  repeat match type of H with
         | _ = (?s ++ _)%string =>
             destruct s; simpl in H; [discriminate H | injection H as _ H]
         end.

Lemma image_message_apart (seo : SEO) (c : seoCheck) (s : string) :
  c <> ImagesNoAlt ->
  checkMessage seo c <> s ++ " images without alt text".
Proof.
  intros Hc H; destruct c; simpl in H; try congruence; clear Hc;
    peel_suffix H; destruct s; discriminate H.
Qed.

Lemma checkMessage_inj (seo : SEO) (c d : seoCheck) :
  checkMessage seo c = checkMessage seo d -> c = d.
Proof.
  intros H.
  destruct (seoCheck_eq_dec c ImagesNoAlt) as [->|Hc].
  - destruct (seoCheck_eq_dec d ImagesNoAlt) as [->|Hd]; [reflexivity|].
    symmetry in H; apply image_message_apart in H; [contradiction|assumption].
  - destruct (seoCheck_eq_dec d ImagesNoAlt) as [->|Hd].
    + apply image_message_apart in H; [contradiction|assumption].
    + destruct c, d; try congruence; discriminate H.
Qed.

Lemma NoDup_map_filter {A B : Type} (f : A -> B) (p : A -> bool) (l : list A) :
  (forall x y, f x = f y -> x = y) -> NoDup l -> NoDup (map f (filter p l)).
Proof.
  intros Hinj Hl; induction Hl as [|x l Hx Hl IH]; simpl; [constructor|].
  destruct (p x); [|exact IH].
  simpl; constructor; [|exact IH].
  intros Hin; apply in_map_iff in Hin as (y & Hy & Hin).
  apply Hinj in Hy; subst y.
  apply filter_In in Hin; tauto.
Qed.

Lemma checkOrder_NoDup : NoDup checkOrder.
Proof.
  unfold checkOrder;
    repeat (constructor; [simpl; intuition discriminate|]); constructor.
Qed.

(** C5: the scoring boundary case. With no title, no meta description, no
    H1, no image without alt text, no canonical URL, no Open Graph title
    or description, no header and no footer, the score is
    100 - 20 - 15 - 20 - 5 - 5 - 5 - 10 = 20 and exactly seven issues
    are listed, whatever the remaining fields of the two signals hold. *)
Theorem C5_boundary_score (seo0 : SEO) (layout0 : Layout) :
  let r := calculateSEOScore (boundarySEO seo0) (boundaryLayout layout0) in
  score r = 100 - 20 - 15 - 20 - 5 - 5 - 5 - 10
  /\ score r = 20
  /\ length (issues r) = 7%nat
  /\ issues r =
     ["Missing page title"; "Missing meta description"; "No H1 heading found";
      "No header element"; "No footer element"; "No canonical URL";
      "Missing Open Graph tags"].
Proof. repeat split. Qed.

(** C6: for every SEO and layout signal the score lies in [0,100]. The
    deductions never add up to more than 90, the image check taking two
    points an image and at most ten, so the score before the clamp is
    already at least 10. *)
Theorem C6_score_in_range (seo : SEO) (layout : Layout) :
  0 <= score (calculateSEOScore seo layout) <= 100
  /\ 10 <= fst (seoDeductions seo layout)
  /\ checkPoints seo ImagesNoAlt = Z.min 10 (imagesWithoutAlt seo * 2)
  /\ checkPoints seo ImagesNoAlt <= 10.
Proof.
  pose proof (deductions_bounded seo layout) as Hb.
  assert (E : fst (seoDeductions seo layout)
              = 100 - sumZ (map (checkPoints seo) (firedChecks seo layout)))
    by (rewrite seoDeductions_fired; reflexivity).
  unfold calculateSEOScore; cbn [score checkPoints].
  rewrite E; lia.
Qed.

(** C7: every deduction the engine applies appends one issue and every
    issue stands for one applied deduction. The issues are the messages of
    the checks that fire, taken in the fixed check order and pairwise
    different; 100 minus the score before the clamp is the sum of the
    points of these checks, each of which is positive; and the issue list
    is empty exactly when the score is 100. *)
Theorem C7_issues_match_deductions (seo : SEO) (layout : Layout) :
  let r := calculateSEOScore seo layout in
  let fired := filter (checkFires seo layout) checkOrder in
  issues r = map (checkMessage seo) fired
  /\ 100 - fst (seoDeductions seo layout) = sumZ (map (checkPoints seo) fired)
  /\ Forall (fun c => 0 < checkPoints seo c) fired
  /\ length (issues r) = length fired
  /\ NoDup (issues r)
  /\ (issues r = [] <-> score r = 100).
Proof.
  intros r fired.
  assert (Hi : issues r = map (checkMessage seo) fired).
  { unfold r, calculateSEOScore; simpl; rewrite seoDeductions_fired; reflexivity. }
  assert (Hp : fst (seoDeductions seo layout)
               = 100 - sumZ (map (checkPoints seo) fired))
    by (rewrite seoDeductions_fired; reflexivity).
  assert (Hs : score r = 100 - sumZ (map (checkPoints seo) fired)).
  { pose proof (deductions_bounded seo layout) as Hb.
    unfold firedChecks in Hb; fold fired in Hb.
    unfold r, calculateSEOScore; cbn [score]; rewrite Hp; lia. }
  split; [exact Hi|].
  split; [rewrite Hp; lia|].
  split.
  { apply Forall_forall; intros c Hc; apply filter_In in Hc as [_ Hc].
    eapply fired_points_pos; eassumption. }
  split; [rewrite Hi; apply length_map|].
  split.
  { rewrite Hi; apply NoDup_map_filter;
      [apply checkMessage_inj | apply checkOrder_NoDup]. }
  rewrite Hi, Hs; split.
  - intros E; apply map_eq_nil in E; rewrite E; reflexivity.
  - intros E; destruct fired eqn:Hf; [reflexivity|exfalso].
    assert (0 < sumZ (map (checkPoints seo) fired)).
    { unfold fired; apply sumZ_fired_pos; fold fired; congruence. }
    rewrite Hf in H; lia.
Qed.

(* ----------------------------------------------------------------- *)
(** ** Accessibility checker *)

(** The loop finds a jump exactly when there is one at or after [i]. *)
Lemma skipLoop_spec (h : list Z) (fuel i : nat) :
  (length h <= i + fuel)%nat ->
  skipLoop h i fuel = true <->
  exists j, (i <= j < length h)%nat /\ nth j h 0 - nth (j - 1) h 0 > 1.
Proof.
  revert i; induction fuel as [|fuel IH]; intros i Hlen; simpl.
  - split; [discriminate|]. intros (j & Hj & _); lia.
  - destruct (Nat.ltb_spec i (length h)) as [Hi|Hi].
    + destruct (Z.gtb_spec (nth i h 0 - nth (i - 1) h 0) 1) as [Hg|Hg].
      * split; [|reflexivity]. intros _; exists i; split; lia.
      * rewrite IH by lia. split.
        -- intros (j & Hj & Hjump); exists j; split; [lia|exact Hjump].
        -- intros (j & Hj & Hjump).
           destruct (Nat.eq_dec j i) as [->|Hne]; [lia|].
           exists j; split; [lia|exact Hjump].
    + split; [discriminate|]. intros (j & Hj & _); lia.
Qed.

Lemma skippedHeading_spec (h : list Z) :
  skippedHeading h = true <-> exists i, jumpAt h i.
Proof.
  unfold skippedHeading, jumpAt; rewrite skipLoop_spec by lia.
  split; intros (j & Hj & Hjump); exists j; (split; [lia|exact Hjump]).
Qed.

(** The result is made of four optional entries, one a check. *)
Lemma checkAccessibility_entries (doc : document) :
  checkAccessibility doc =
  (entry (negb (truthy (attrOfFirst (selectTag doc "html") "lang"))) langIssue
   ++ entry (Z.of_nat (length (selectTagWithout doc "img" "alt")) >? 0)
        (altIssue (Z.of_nat (length (selectTagWithout doc "img" "alt"))))
   ++ entry (Z.of_nat (length (selectTagWithout doc "a" "href")) >? 0) hrefIssue
   ++ entry (skippedHeading (headingOrder doc)) headingIssue)%list.
Proof.
  unfold checkAccessibility, entry, push.
  destruct (negb _), (_ >? 0), (_ >? 0), (skippedHeading _); reflexivity.
Qed.

Lemma altIssue_not_headingIssue (n : Z) : altIssue n <> headingIssue.
Proof.
  unfold altIssue, headingIssue; generalize (string_of_Z n); intros s H.
  symmetry in H; peel_suffix H; destruct s; discriminate H.
Qed.

Lemma headingIssue_reported (doc : document) :
  In headingIssue (checkAccessibility doc) <->
  skippedHeading (headingOrder doc) = true.
Proof.
  rewrite checkAccessibility_entries, !in_app_iff; unfold entry.
  destruct (skippedHeading (headingOrder doc)); simpl.
  - tauto.
  - split; [|discriminate].
    intros [H|[H|[H|H]]].
    + destruct (negb _); simpl in H; [destruct H as [H|[]]; discriminate H|contradiction].
    + destruct (_ >? 0); simpl in H; [|contradiction].
      destruct H as [H|[]]; apply altIssue_not_headingIssue in H; contradiction.
    + destruct (_ >? 0); simpl in H; [destruct H as [H|[]]; discriminate H|contradiction].
    + contradiction.
Qed.

(** C8: the skipped-heading issue is reported exactly when, somewhere in
    the heading levels of the document taken in document order, a heading
    is more than one level deeper than the one before it. A
    document whose levels are 1, 2, 4 gets the issue, one whose levels are
    1, 2, 3 does not, and levels that never rise by more than one, however
    far they fall, do not get it. *)
Theorem C8_skipped_heading (doc : document) :
  (In headingIssue (checkAccessibility doc) <->
   exists i, jumpAt (headingOrder doc) i)
  /\ (headingOrder doc = [1; 2; 4] -> In headingIssue (checkAccessibility doc))
  /\ (headingOrder doc = [1; 2; 3] -> ~ In headingIssue (checkAccessibility doc))
  /\ ((forall i, (1 <= i < length (headingOrder doc))%nat ->
         nth i (headingOrder doc) 0 <= nth (i - 1) (headingOrder doc) 0 + 1) ->
      ~ In headingIssue (checkAccessibility doc)).
Proof.
  assert (Hiff : In headingIssue (checkAccessibility doc) <->
                 exists i, jumpAt (headingOrder doc) i)
    by (rewrite headingIssue_reported; apply skippedHeading_spec).
  split; [exact Hiff|]. split; [|split].
  - intros E; apply headingIssue_reported; rewrite E; reflexivity.
  - intros E H; apply headingIssue_reported in H; rewrite E in H; discriminate H.
  - intros Hall H; apply Hiff in H as (i & Hi & Hjump).
    specialize (Hall i Hi); lia.
Qed.

Lemma C8_skipped_heading_witness :
  In headingIssue (checkAccessibility (docWithHeadings [1; 2; 4]))
  /\ ~ In headingIssue (checkAccessibility (docWithHeadings [1; 2; 3]))
  /\ ~ In headingIssue (checkAccessibility (docWithHeadings [3; 1; 2; 1])).
Proof.
  split; [|split].
  - exact (proj1 (proj2 (C8_skipped_heading (docWithHeadings [1; 2; 4])))
                  eq_refl).
  - exact (proj1 (proj2 (proj2 (C8_skipped_heading (docWithHeadings [1; 2; 3]))))
                  eq_refl).
  - apply (proj2 (proj2 (proj2 (C8_skipped_heading
                                  (docWithHeadings [3; 1; 2; 1]))))).
    intros i Hi; simpl in Hi.
    destruct i as [|[|[|[|i]]]]; simpl; lia.
Defined.

(** C10: for every document the checker returns at most four issues, in
    the fixed order: the missing lang attribute of the root element, the
    images without alt text as one entry that carries their number, the
    links without href as one entry however many there are, and the
    skipped heading levels as one entry; each of the four contributes one
    entry or none. *)
Theorem C10_accessibility_entries (doc : document) :
  let images := Z.of_nat (length (selectTagWithout doc "img" "alt")) in
  let links := Z.of_nat (length (selectTagWithout doc "a" "href")) in
  checkAccessibility doc =
  (entry (negb (truthy (attrOfFirst (selectTag doc "html") "lang")))
         "Missing lang attribute on <html>"
   ++ entry (images >? 0) (string_of_Z images ++ " images missing alt text")
   ++ entry (links >? 0) "Links without href attribute"
   ++ entry (skippedHeading (headingOrder doc))
        "Skipped heading levels detected")%list
  /\ (length (checkAccessibility doc) <= 4)%nat.
Proof.
  intros images links; split.
  - apply checkAccessibility_entries.
  - rewrite checkAccessibility_entries, !length_app; unfold entry.
    destruct (negb _), (_ >? 0), (_ >? 0), (skippedHeading _); simpl; lia.
Qed.

(* ----------------------------------------------------------------- *)
(** ** Strings: [includes], [toLowerCase], [join] *)

Lemma append_assoc (a b c : string) : (a ++ b) ++ c = a ++ (b ++ c).
Proof. induction a as [|x a IH]; simpl; [reflexivity|now rewrite IH]. Qed.

Lemma append_nil_r (a : string) : a ++ EmptyString = a.
Proof. induction a as [|x a IH]; simpl; [reflexivity|now rewrite IH]. Qed.

Lemma prefix_append (sub q : string) : prefix sub (sub ++ q) = true.
Proof.
  induction sub as [|a sub IH]; simpl.
  - destruct q; reflexivity.
  - destruct (ascii_dec a a); [exact IH|congruence].
Qed.

Lemma prefix_split (sub s : string) :
  prefix sub s = true -> exists q, s = sub ++ q.
Proof.
  revert s; induction sub as [|a sub IH]; intros s H.
  - exists s; reflexivity.
  - destruct s as [|b s]; simpl in H; [discriminate|].
    destruct (ascii_dec a b) as [->|]; [|discriminate].
    destruct (IH s H) as (q & ->); exists q; reflexivity.
Qed.

Lemma includes_unfold (s sub : string) :
  includes s sub =
  if prefix sub s then true
  else match s with
       | EmptyString => false
       | String _ s' => includes s' sub
       end.
Proof. destruct s; reflexivity. Qed.

(** [s.includes(sub)] holds exactly when [sub] occurs in [s]. *)
Lemma includes_spec (s sub : string) :
  includes s sub = true <-> exists p q, s = p ++ sub ++ q.
Proof.
  split.
  - induction s as [|a s IH]; rewrite includes_unfold;
      destruct (prefix sub _) eqn:Hp.
    + intros _; apply prefix_split in Hp as (q & ->).
      exists EmptyString, q; reflexivity.
    + discriminate.
    + intros _; apply prefix_split in Hp as (q & ->).
      exists EmptyString, q; reflexivity.
    + intros H; destruct (IH H) as (p & q & ->).
      exists (String a p), q; reflexivity.
  - intros (p & q & ->); induction p as [|a p IH]; rewrite includes_unfold.
    + simpl; rewrite prefix_append; reflexivity.
    + destruct (prefix sub _); [reflexivity|exact IH].
Qed.

Lemma includes_append (p s q sub : string) :
  includes s sub = true -> includes (p ++ s ++ q) sub = true.
Proof.
  rewrite !includes_spec; intros (a & b & ->).
  exists (p ++ a), (b ++ q); now rewrite !append_assoc.
Qed.

Lemma includes_trans (s mid sub : string) :
  includes s mid = true -> includes mid sub = true -> includes s sub = true.
Proof.
  intros H1 H2; apply includes_spec in H1 as (p & q & ->).
  now apply includes_append.
Qed.

Lemma toLowerCase_append (a b : string) :
  toLowerCase (a ++ b) = toLowerCase a ++ toLowerCase b.
Proof. induction a as [|x a IH]; simpl; [reflexivity|now rewrite IH]. Qed.

Lemma includes_toLowerCase (s sub : string) :
  includes s sub = true ->
  includes (toLowerCase s) (toLowerCase sub) = true.
Proof.
  rewrite !includes_spec; intros (p & q & ->).
  exists (toLowerCase p), (toLowerCase q); now rewrite !toLowerCase_append.
Qed.

(** An element of an array occurs in the joined string. *)
Lemma join_includes (sep u : string) (l : list string) :
  In u l -> exists p q, join sep l = p ++ u ++ q.
Proof.
  unfold join; induction l as [|x l IH]; [contradiction|].
  intros [->|Hin].
  - destruct l as [|y l].
    + exists EmptyString, EmptyString; simpl; now rewrite append_nil_r.
    + exists EmptyString, (sep ++ String.concat sep (y :: l)); reflexivity.
  - destruct l as [|y l]; [contradiction|].
    destruct (IH Hin) as (p & q & E).
    exists (x ++ sep ++ p), q.
    change (String.concat sep (x :: y :: l))
      with (x ++ sep ++ String.concat sep (y :: l)).
    now rewrite E, !append_assoc.
Qed.

(* ----------------------------------------------------------------- *)
(** ** Arrays and sets *)

Lemma set_add_In (x y : string) (seen : list string) :
  In y (set_add x seen) <-> y = x \/ In y seen.
Proof.
  induction seen as [|z seen IH]; simpl.
  - intuition.
  - destruct (String.eqb_spec x z) as [->|Hne]; simpl; [intuition|].
    rewrite IH; intuition.
Qed.

Lemma set_add_NoDup (x : string) (seen : list string) :
  NoDup seen -> NoDup (set_add x seen).
Proof.
  induction seen as [|z seen IH]; simpl; intros Hnd.
  - constructor; [intros []|constructor].
  - destruct (String.eqb_spec x z) as [->|Hne]; [exact Hnd|].
    inversion Hnd as [|? ? Hz Hnd']; subst.
    constructor; [|apply IH; exact Hnd'].
    rewrite set_add_In; intros [E|Hin]; [congruence|contradiction].
Qed.

Lemma fold_set_add (arr seen : list string) :
  NoDup seen ->
  NoDup (fold_left (fun seen x => set_add x seen) arr seen)
  /\ forall y, In y (fold_left (fun seen x => set_add x seen) arr seen)
               <-> In y arr \/ In y seen.
Proof.
  revert seen; induction arr as [|x arr IH]; simpl; intros seen Hnd.
  - split; [exact Hnd|intuition].
  - destruct (IH (set_add x seen) (set_add_NoDup x seen Hnd)) as [H1 H2].
    split; [exact H1|].
    intros y; rewrite H2, set_add_In; intuition.
Qed.

(** The array of a set has no value twice and holds the values of the
    array the set was built from. *)
Lemma array_of_set_NoDup (arr : list string) : NoDup (array_of_set arr).
Proof. apply (fold_set_add arr []); constructor. Qed.

Lemma array_of_set_In (arr : list string) (y : string) :
  In y (array_of_set arr) <-> In y arr.
Proof.
  unfold array_of_set.
  destruct (fold_set_add arr [] (NoDup_nil _)) as [_ H].
  rewrite H; simpl; intuition.
Qed.

(* ----------------------------------------------------------------- *)
(** ** Technology detector *)

Lemma pushIf_keeps (c : bool) (x y : string) (arr : list string) :
  In y arr -> In y (pushIf c x arr).
Proof.
  unfold pushIf, push; destruct c; [|trivial].
  intros H; apply in_or_app; now left.
Qed.

Lemma pushIf_adds (c : bool) (x : string) (arr : list string) :
  c = true -> In x (pushIf c x arr).
Proof.
  intros ->; unfold pushIf, push; apply in_or_app; right; now left.
Qed.

(** A script URL with the segment makes the [_next] test succeed. *)
Lemma next_signature (scripts : list string) (u : string) :
  In u scripts -> includes u "_next/static/" = true ->
  includes (toLowerCase (join " " scripts)) "_next" = true.
Proof.
  intros Hin Hu.
  destruct (join_includes " " u scripts Hin) as (p & q & E).
  rewrite E.
  apply (includes_toLowerCase _ "_next").
  apply includes_append.
  apply (includes_trans _ _ _ Hu); reflexivity.
Qed.

Lemma techPushed_next (generator : option string) (scripts : list string)
    (html : string) :
  includes (toLowerCase (join " " scripts)) "_next" = true ->
  In "Next.js" (techPushed generator scripts html).
Proof.
  intros H; unfold techPushed; cbv zeta.
  repeat first [ apply pushIf_adds; exact H | apply pushIf_keeps ].
Qed.

(** C9: when the segment [_next/static/] occurs in one or in several of
    the script URLs of the page, the output of [detectTechStack] holds
    [Next.js] exactly once. In general the output is the array the
    function filled with its duplicates removed: no name occurs twice and
    the names are those that were pushed. *)
Theorem C9_next_once (generator : option string) (scripts : list string)
    (html : string) :
  ((exists u, In u scripts /\ includes u "_next/static/" = true) ->
   count_occ string_dec (detectTechStack generator scripts html) "Next.js"
   = 1%nat)
  /\ NoDup (detectTechStack generator scripts html)
  /\ (forall name, In name (detectTechStack generator scripts html)
                   <-> In name (techPushed generator scripts html)).
Proof.
  split; [|split].
  - intros (u & Hin & Hu).
    apply NoDup_count_occ'; [apply array_of_set_NoDup|].
    apply array_of_set_In, techPushed_next, (next_signature scripts u Hin Hu).
  - apply array_of_set_NoDup.
  - intros name; apply array_of_set_In.
Qed.

Lemma C9_next_once_witness :
  count_occ string_dec
    (detectTechStack (Some "Next.js") nextScripts
       ("<div " ++ idAttr "__next" ++ "></div>")) "Next.js" = 1%nat.
Proof.
  apply (proj1 (C9_next_once (Some "Next.js") nextScripts
                  ("<div " ++ idAttr "__next" ++ "></div>"))).
  exists "https://example.com/_next/static/chunks/main.js".
  split; [simpl; auto | reflexivity].
Defined.

(* ----------------------------------------------------------------- *)
(** ** URL normalizer *)

Section Normalizer.

Variable parse : string -> option URL.

(** When the constructor throws, the input is prefixed. *)
Lemma normalizeUrl_parse_failure (input : string) :
  parse input = None ->
  normalizeUrl parse input = "https://" ++ input
  /\ startsWith (normalizeUrl parse input) "https://" = true.
Proof.
  intros H; unfold normalizeUrl; rewrite H; split; [reflexivity|].
  apply (prefix_append "https://" input).
Qed.

(** The setter takes effect on a URL with a special scheme and a host,
    the [file] scheme with an empty host apart. *)
Lemma setProtocol_special (u : URL) :
  isSpecial (scheme u) = true ->
  ((scheme u =? "file")%string
   && match host u with
      | Some h => (h =? EmptyString)%string
      | None => false
      end) = false ->
  scheme (setProtocol u "https:") = "https"
  /\ host (setProtocol u "https:") = host u.
Proof.
  intros Hs Hf; unfold setProtocol.
  change (schemeStartState (removeTabNewline ("https:" ++ ":")))
    with (Some "https").
  cbv beta iota.
  change (isSpecial "https") with true.
  change ("https" =? "file")%string with false.
  rewrite Hs, Hf; simpl; rewrite !andb_false_r.
  split; reflexivity.
Qed.

Lemma normalizeUrl_special (input : string) (u : URL) (h : string) :
  parse input = Some u ->
  isSpecial (scheme u) = true ->
  host u = Some h ->
  ((scheme u =? "file")%string && (h =? EmptyString)%string) = false ->
  startsWith (normalizeUrl parse input) "https://" = true.
Proof.
  intros Hp Hs Hh Hf; unfold normalizeUrl; rewrite Hp.
  destruct (setProtocol_special u Hs) as [E1 E2]; [rewrite Hh; exact Hf|].
  unfold href; rewrite E1, E2, Hh.
  unfold startsWith.
  repeat match goal with
         | |- context [match ?x with Some _ => _ | None => _ end] => destruct x
         | |- context [if ?b then _ else _] => destruct b
         end;
    rewrite ?append_assoc; apply (prefix_append "https://").
Qed.

(** The setter leaves a URL with a non-special scheme as it is: the
    scheme state returns before it sets the scheme. *)
Lemma setProtocol_non_special (u : URL) :
  isSpecial (scheme u) = false -> setProtocol u "https:" = u.
Proof.
  intros Hs; unfold setProtocol.
  change (schemeStartState (removeTabNewline ("https:" ++ ":")))
    with (Some "https").
  cbv beta iota.
  change (isSpecial "https") with true.
  rewrite Hs; reflexivity.
Qed.

(** C4, on the code: an input that the URL constructor accepts with a
    scheme that is not special keeps its scheme. For the input
    [localhost:3000], which the parser of the standard reads as the scheme
    [localhost] followed by the opaque path [3000], the normalizer returns
    the input unchanged, and the result does not begin with [https://]. *)
Theorem C4_non_special_scheme_kept :
  parse "localhost:3000" = Some (opaqueURL "localhost" "3000") ->
  normalizeUrl parse "localhost:3000" = "localhost:3000"
  /\ startsWith (normalizeUrl parse "localhost:3000") "https://" = false.
Proof.
  intros H; unfold normalizeUrl; rewrite H.
  rewrite setProtocol_non_special by reflexivity.
  split; reflexivity.
Qed.

End Normalizer.

Lemma C4_non_special_scheme_kept_witness :
  normalizeUrl (fun _ => Some (opaqueURL "localhost" "3000")) "localhost:3000"
  = "localhost:3000".
Proof.
  exact (proj1 (C4_non_special_scheme_kept
                  (fun _ => Some (opaqueURL "localhost" "3000")) eq_refl)).
Defined.

(* ----------------------------------------------------------------- *)
(** ** The handler: navigation and the page life cycle *)

Lemma newEvents_app (st st' : State) (evs : list Event) :
  trace st' = (trace st ++ evs)%list -> newEvents st st' = evs.
Proof.
  intros E; unfold newEvents; rewrite E, skipn_app, skipn_all, Nat.sub_diag.
  reflexivity.
Qed.

Lemma freshPage_fresh (l : list nat) : ~ In (freshPage l) l.
Proof.
  unfold freshPage; intros Hin.
  pose proof (list_max_le l (list_max l)) as [H _].
  specialize (H (Nat.le_refl _)).
  rewrite Forall_forall in H; specialize (H _ Hin); lia.
Qed.

Lemma remove_pushed (p : nat) (l : list nat) :
  ~ In p l -> remove Nat.eq_dec p (push l p) = l.
Proof.
  intros Hn; unfold push; rewrite remove_app, (notin_remove _ _ _ Hn); simpl.
  destruct (Nat.eq_dec p p); [apply app_nil_r|congruence].
Qed.


(** Symbolic run of a handler computation: the combinators and the
    platform calls are unfolded, the extractors and the string functions
    are not. *)
Ltac unfold_run H :=
  cbv [analyze analyzeTry analyzeCatch navigate initBrowser newPage
       pageSetUserAgent pageGoto pageScreenshot pageContent pageClose
       detectTechStackOnPage getPerformanceMetrics console_log delay
       bind ret throw tryCatch modify gets await record respond
       setBrowser setOpenPages setPage setLoadSuccess setCloseCalls
       browser openPages page loadSuccess closeCalls trace sent status
       negb] in H.

(** The term on which the evaluation of a run is stuck. *)
Ltac stuck t :=
  lazymatch t with
  | (let (_, _) := ?x in _) => stuck x
  | match ?x with Done _ => _ | Raise _ => _ end => stuck x
  | (if ?x then _ else _) => stuck x
  | match ?x with Some _ => _ | None => _ end => stuck x
  | ?f ?a => let h := stuck f in
             lazymatch h with
             | f => t
             | _ => h
             end
  | _ => t
  end.

Ltac case_run H :=
  repeat (cbv beta iota in H;
          lazymatch type of H with
          | (_, _) = _ => fail
          | ?lhs = _ => let x := stuck lhs in destruct x eqn:?
          end).

(** At the end of a path: the events the run added, as a list. *)
Ltac path_events H :=
  injection H as <- <-;
  cbn [fst snd trace openPages sent loadSuccess page];
  repeat match goal with
         | |- context [newEvents ?a ?b] =>
             let E := fresh "E" in
             eassert (E : newEvents a b = _)
               by (apply newEvents_app; cbn [trace]; unfold push;
                   rewrite <- ?app_assoc; reflexivity);
             rewrite !E; clear E
         end.






Lemma technicalDetails_newError (env : Env) (msg : string) :
  technicalDetails (newError env msg) = "Error: " ++ msg ++ stackFrames env.
Proof. reflexivity. Qed.


(** C2: the strategies are tried in the order networkidle2,
    domcontentloaded, load, the attempts stop at the first that resolves,
    and the strategy used is the first of this order that resolves. When
    the first two fail and the load strategy resolves, the three are
    attempted in this order, the navigation completes with [loadSuccess]
    set, and the strategy used is load. *)
Theorem C2_falls_back_to_load (env : Env) (p : nat) (u : string)
    (timeout : Z) (st : State) :
  let r := fst (navigate env p u timeout st) in
  let st' := snd (navigate env p u timeout st) in
  let evs := newEvents st st' in
  strategyUsed evs = find (fun w => resolves (gotoResult env w)) strategyOrder
  /\ (exists n, map fst (attempts evs) = firstn n strategyOrder)
  /\ loadSuccess st' = resolves r
  /\ (resolves (gotoResult env networkidle2) = false ->
      resolves (gotoResult env domcontentloaded) = false ->
      resolves (gotoResult env load) = true ->
      r = Done tt
      /\ loadSuccess st' = true
      /\ attempts evs =
         [(networkidle2, false); (domcontentloaded, false); (load, true)]
      /\ strategyUsed evs = Some load
      /\ In (Log "✓ Loaded with load event") evs).
Proof.
  destruct (navigate env p u timeout st) as [r st'] eqn:H.
  destruct st as [b ops pg ls cc tr sn]; unfold_run H; case_run H.
  all: path_events H; cbn; rewrite ?Heqo, ?Heqo0, ?Heqo1; cbn.
  all: repeat split; intros;
       try solve [ reflexivity | discriminate
                 | exists 1%nat; reflexivity | exists 2%nat; reflexivity
                 | exists 3%nat; reflexivity
                 | simpl; tauto ].
Qed.

Lemma C2_falls_back_to_load_witness :
  strategyUsed
    (newEvents initialState
       (snd (navigate (withGoto exampleEnv loadOnly) 1 "https://example.com/"
               30000 initialState)))
  = Some load.
Proof.
  pose proof (C2_falls_back_to_load (withGoto exampleEnv loadOnly) 1
                "https://example.com/" 30000 initialState)
    as (_ & _ & _ & H).
  destruct (H eq_refl eq_refl eq_refl) as (_ & _ & _ & Hused & _).
  exact Hused.
Defined.



(* ----------------------------------------------------------------- *)
(** ** Detectors as rule tables *)

Lemma pushAll_spec (rules : list (bool * string)) (arr : list string) :
  pushAll rules arr = (arr ++ map snd (filter fst rules))%list.
Proof.
  unfold pushAll; revert arr; induction rules as [|[c x] rules IH];
    intros arr; simpl.
  - now rewrite app_nil_r.
  - rewrite IH; unfold pushIf, push; destruct c; simpl;
      [now rewrite <- app_assoc | reflexivity].
Qed.

Lemma evaluated_matched (hay : string) (table : list rule) :
  map snd (filter fst (map (evaluated hay) table)) = matched hay table.
Proof.
  unfold matched; induction table as [|r table IH]; simpl; [reflexivity|].
  destruct (anyIncludes hay (fst r)); simpl; now rewrite IH.
Qed.

(** A table with distinct names reports no name twice. *)
Lemma matched_NoDup (hay : string) (table : list rule) :
  NoDup (map snd table) -> NoDup (matched hay table).
Proof.
  unfold matched; induction table as [|r table IH]; simpl; intros Hnd.
  - constructor.
  - apply NoDup_cons_iff in Hnd as [Hr Hnd].
    destruct (anyIncludes hay (fst r)); [|now apply IH].
    simpl; apply NoDup_cons_iff; split; [|now apply IH].
    intros Hin; apply Hr.
    apply in_map_iff in Hin as (r' & Hname & Hin).
    apply filter_In in Hin as [Hin _].
    rewrite <- Hname; now apply in_map.
Qed.

Lemma matched_length (hay : string) (table : list rule) :
  (length (matched hay table) <= length table)%nat.
Proof.
  unfold matched; rewrite length_map; apply filter_length_le.
Qed.

Lemma detectTrackers_pushAll (html : string) :
  detectTrackers html =
  pushAll (map (evaluated (toLowerCase html)) trackerSignatures) [].
Proof. reflexivity. Qed.

(** X1: the tracker detector is its rule table: the result holds the
    names of the rules one of whose signatures occurs in the lower-cased
    HTML, in the order of the table. No name is reported twice and at most
    nine are reported. *)
Theorem detectTrackers_table (html : string) :
  detectTrackers html = matched (toLowerCase html) trackerSignatures
  /\ NoDup (detectTrackers html)
  /\ (length (detectTrackers html) <= 9)%nat.
Proof.
  assert (E : detectTrackers html = matched (toLowerCase html) trackerSignatures).
  { rewrite detectTrackers_pushAll, pushAll_spec.
    exact (evaluated_matched _ _). }
  rewrite E; split; [reflexivity|split].
  - apply matched_NoDup.
    repeat (constructor; [simpl; intuition discriminate|]); constructor.
  - apply (matched_length _ trackerSignatures).
Qed.

Lemma lower_ascii_idem (c : ascii) : lower_ascii (lower_ascii c) = lower_ascii c.
Proof.
  destruct c as [[] [] [] [] [] [] [] []]; reflexivity.
Qed.

Lemma toLowerCase_idem (s : string) : toLowerCase (toLowerCase s) = toLowerCase s.
Proof.
  induction s as [|c s IH]; simpl; [reflexivity|].
  now rewrite lower_ascii_idem, IH.
Qed.

Lemma anyIncludes_In (hay sig : string) (sigs : list string) :
  In sig sigs -> includes hay sig = true -> anyIncludes hay sigs = true.
Proof.
  induction sigs as [|s rest IH]; [contradiction|].
  intros [->|Hin] H; simpl.
  - destruct rest; [exact H|]. now rewrite H.
  - destruct rest as [|s' rest']; [contradiction|].
    rewrite (IH Hin H); apply orb_true_r.
Qed.

Lemma matched_In (hay name : string) (sigs : list string) (table : list rule) :
  In (sigs, name) table -> anyIncludes hay sigs = true ->
  In name (matched hay table).
Proof.
  intros Hin H; unfold matched.
  apply in_map_iff; exists (sigs, name); split; [reflexivity|].
  apply filter_In; split; [exact Hin|exact H].
Qed.

(** X2: the tracker detector does not depend on the case of ASCII
    letters. Lower-casing the HTML first changes nothing, and a text of
    the HTML whose lower-case form is a signature of a rule makes the
    detector report the name of that rule. *)
Theorem detectTrackers_case_insensitive (html : string) :
  detectTrackers (toLowerCase html) = detectTrackers html
  /\ forall sigs name sig variant,
       In (sigs, name) trackerSignatures -> In sig sigs ->
       toLowerCase variant = sig -> includes html variant = true ->
       In name (detectTrackers html).
Proof.
  split.
  - rewrite !detectTrackers_pushAll, toLowerCase_idem; reflexivity.
  - intros sigs name sig variant Hrule Hsig Hlow Hinc.
    rewrite detectTrackers_pushAll, pushAll_spec.
    change (In name (map snd (filter fst
              (map (evaluated (toLowerCase html)) trackerSignatures)))).
    rewrite evaluated_matched.
    apply (matched_In _ _ sigs); [exact Hrule|].
    apply (anyIncludes_In _ sig); [exact Hsig|].
    rewrite <- Hlow; now apply includes_toLowerCase.
Qed.

Lemma detectTrackers_case_insensitive_witness :
  In "Hotjar" (detectTrackers "<script src='https://static.HotJar.com/c/hotjar.js'>").
Proof.
  apply (proj2 (detectTrackers_case_insensitive
                  "<script src='https://static.HotJar.com/c/hotjar.js'>")
           ["hotjar"] "Hotjar" "hotjar" "HotJar");
    [simpl; tauto | simpl; tauto | reflexivity | reflexivity].
Defined.

Lemma techPushed_pushAll (g : option string) (scripts : list string)
    (html : string) :
  techPushed g scripts html =
  pushAll (map (evaluated (toLowerCase html)) rootSignatures)
    (pushAll (map (evaluated (toLowerCase (join " " scripts))) scriptSignatures)
       (match g with
        | Some x => entry (truthy g) x
        | None => []
        end)).
Proof.
  destruct g as [x|]; [|reflexivity].
  unfold techPushed; cbv zeta.
  unfold entry, pushIf at 17; unfold push.
  destruct (truthy (Some x)); reflexivity.
Qed.

Lemma set_add_head (x y : string) (seen : list string) :
  hd_error (set_add y (x :: seen)) = Some x.
Proof. simpl; destruct (y =? x)%string; reflexivity. Qed.

Lemma array_of_set_head (x : string) (arr : list string) :
  hd_error (array_of_set (x :: arr)) = Some x.
Proof.
  unfold array_of_set; simpl.
  assert (H : forall l seen, hd_error seen = Some x ->
            hd_error (fold_left (fun seen x => set_add x seen) l seen) = Some x).
  { induction l as [|y l IH]; intros seen Hs; simpl; [exact Hs|].
    apply IH. destruct seen as [|z seen]; [discriminate|].
    injection Hs as ->. apply set_add_head. }
  apply H; reflexivity.
Qed.

(** X3: the array the technology detector fills is the generator, when
    there is one, followed by the matching rules of the script table and
    then by those of the root-container table; the result is that array
    with later duplicates removed. A generator is reported first, and at
    most fifteen names are reported. *)
Theorem detectTechStack_table (g : option string) (scripts : list string)
    (html : string) :
  let fromGenerator := match g with
                       | Some x => entry (truthy g) x
                       | None => []
                       end in
  let pushed :=
    (fromGenerator
       ++ matched (toLowerCase (join " " scripts)) scriptSignatures
       ++ matched (toLowerCase html) rootSignatures)%list in
  techPushed g scripts html = pushed
  /\ detectTechStack g scripts html = array_of_set pushed
  /\ (truthy g = true -> hd_error (detectTechStack g scripts html) = g)
  /\ (length (detectTechStack g scripts html) <= 15)%nat.
Proof.
  intros fromGenerator pushed.
  assert (E : techPushed g scripts html = pushed).
  { rewrite techPushed_pushAll, !pushAll_spec, !evaluated_matched.
    unfold pushed; now rewrite app_assoc. }
  split; [exact E|]. split; [unfold detectTechStack; now rewrite E|]. split.
  - intros Hg; unfold detectTechStack; rewrite E; unfold pushed, fromGenerator.
    destruct g as [x|]; [|discriminate].
    rewrite Hg; simpl; apply array_of_set_head.
  - unfold detectTechStack; rewrite E.
    set (names := (match g with Some x => x | None => EmptyString end
                   :: map snd scriptSignatures ++ ["React (likely)"])%list).
    change 15%nat with (length names).
    apply NoDup_incl_length; [apply array_of_set_NoDup|].
    intros x Hx; rewrite array_of_set_In in Hx.
    unfold pushed, fromGenerator in Hx; rewrite !in_app_iff in Hx.
    destruct Hx as [Hx|[Hx|Hx]].
    + destruct g as [y|]; [|contradiction].
      unfold entry in Hx; destruct (truthy (Some y)); [|contradiction].
      destruct Hx as [<-|[]]; now left.
    + right; apply in_or_app; left.
      unfold matched in Hx; apply in_map_iff in Hx as (r & <- & Hr).
      apply filter_In in Hr as [Hr _]; now apply in_map.
    + right.
      unfold matched in Hx; apply in_map_iff in Hx as (r & <- & Hr).
      apply filter_In in Hr as [Hr _].
      simpl in Hr; destruct Hr as [<-|[<-|[<-|[]]]]; simpl; tauto.
Qed.

Lemma detectTechStack_table_witness :
  hd_error (detectTechStack (Some "WordPress 6.4") nextScripts EmptyString)
  = Some "WordPress 6.4".
Proof.
  exact (proj1 (proj2 (proj2 (detectTechStack_table (Some "WordPress 6.4")
                                 nextScripts EmptyString))) eq_refl).
Defined.

(* ----------------------------------------------------------------- *)
(** ** More on the scoring engine *)

Lemma score_fired (seo : SEO) (layout : Layout) :
  score (calculateSEOScore seo layout)
  = 100 - groupPoints seo layout checkOrder.
Proof.
  pose proof (deductions_bounded seo layout) as Hb.
  unfold calculateSEOScore; cbn [score].
  rewrite seoDeductions_fired; cbn [fst].
  unfold groupPoints, firstn, firedChecks in *; lia.
Qed.

Lemma filter_nil_iff {A : Type} (p : A -> bool) (l : list A) :
  filter p l = [] <-> Forall (fun x => p x = false) l.
Proof.
  induction l as [|x l IH]; simpl.
  - split; [constructor|reflexivity].
  - destruct (p x) eqn:Hp; split; intros H.
    + discriminate.
    + inversion H; congruence.
    + constructor; [exact Hp|now apply IH].
    + inversion H; now apply IH.
Qed.

(** X4: the score is 100 exactly when no check fires: a title of at most
    60 characters, a meta description of at most 160, an H1 count that is
    neither zero nor above one, no image without alt text, a header, a
    footer, a canonical URL, and an Open Graph title or description (one
    of the two is enough). *)
Theorem perfect_score_iff (seo : SEO) (layout : Layout) :
  score (calculateSEOScore seo layout) = 100 <->
  truthy (title seo) = true /\ titleLength seo <= 60
  /\ truthy (metaDescription seo) = true /\ metaDescriptionLength seo <= 160
  /\ h1Count seo <> 0 /\ h1Count seo <= 1
  /\ imagesWithoutAlt seo <= 0
  /\ hasHeader layout = true /\ hasFooter layout = true
  /\ truthy (canonical seo) = true
  /\ (truthy (og_title (openGraph seo)) = true
      \/ truthy (og_description (openGraph seo)) = true).
Proof.
  rewrite score_fired; unfold groupPoints.
  assert (Hz : 100 - sumZ (map (checkPoints seo)
                 (filter (checkFires seo layout) checkOrder)) = 100
               <-> filter (checkFires seo layout) checkOrder = []).
  { split; intros H.
    - destruct (filter (checkFires seo layout) checkOrder) eqn:Hf;
        [reflexivity|exfalso].
      assert (0 < sumZ (map (checkPoints seo)
                         (filter (checkFires seo layout) checkOrder)))
        by (apply sumZ_fired_pos; congruence).
      rewrite Hf in H0; lia.
    - rewrite H; reflexivity. }
  rewrite Hz, filter_nil_iff; unfold checkOrder.
  repeat rewrite Forall_cons_iff; simpl checkFires.
  rewrite !Z.gtb_ltb.
  assert (Hnil : Forall (fun x => checkFires seo layout x = false) [] <-> True)
    by (split; constructor).
  rewrite Hnil; clear Hnil Hz.
  destruct (truthy (title seo)), (truthy (metaDescription seo)),
    (hasHeader layout), (hasFooter layout), (truthy (canonical seo)),
    (truthy (og_title (openGraph seo))),
    (truthy (og_description (openGraph seo)));
    simpl; rewrite ?Z.ltb_ge, ?Z.eqb_neq;
    (split; intros H; decompose [and or] H; clear H;
     first [discriminate | repeat split; solve [assumption | auto]]).
Qed.

Lemma groupPoints_withImages (n : Z) (seo : SEO) (layout : Layout)
    (l : list seoCheck) :
  ~ In ImagesNoAlt l ->
  groupPoints (withImages n seo) layout l = groupPoints seo layout l.
Proof.
  unfold groupPoints; induction l as [|c l IH]; simpl; intros Hn;
    [reflexivity|].
  assert (Hc : c <> ImagesNoAlt) by tauto.
  assert (Hl : ~ In ImagesNoAlt l) by tauto.
  specialize (IH Hl).
  replace (checkFires (withImages n seo) layout c)
    with (checkFires seo layout c) by (destruct c; try reflexivity; congruence).
  destruct (checkFires seo layout c); simpl; [|exact IH].
  replace (checkPoints (withImages n seo) c) with (checkPoints seo c)
    by (destruct c; try reflexivity; congruence).
  now rewrite IH.
Qed.

Lemma score_by_images (n : Z) (seo : SEO) (layout : Layout) :
  score (calculateSEOScore (withImages n seo) layout)
  = 100
    - groupPoints seo layout
        [TitleMissing; TitleTooLong; DescriptionMissing; DescriptionTooLong;
         NoH1; MultipleH1]
    - (if n >? 0 then Z.min 10 (n * 2) else 0)
    - groupPoints seo layout [NoHeader; NoFooter; NoCanonical; NoOpenGraph].
Proof.
  rewrite score_fired.
  change checkOrder
    with ([TitleMissing; TitleTooLong; DescriptionMissing; DescriptionTooLong;
           NoH1; MultipleH1] ++ [ImagesNoAlt]
          ++ [NoHeader; NoFooter; NoCanonical; NoOpenGraph])%list.
  assert (Hi : groupPoints (withImages n seo) layout [ImagesNoAlt]
               = if n >? 0 then Z.min 10 (n * 2) else 0)
    by (unfold groupPoints; simpl; destruct (n >? 0); simpl; lia).
  rewrite !groupPoints_app, Hi.
  rewrite (groupPoints_withImages n seo layout
             [TitleMissing; TitleTooLong; DescriptionMissing;
              DescriptionTooLong; NoH1; MultipleH1])
    by (simpl; intuition discriminate).
  rewrite (groupPoints_withImages n seo layout
             [NoHeader; NoFooter; NoCanonical; NoOpenGraph])
    by (simpl; intuition discriminate).
  lia.
Qed.

(** X5: with everything else equal, more images without alt text never
    raise the score, from five images on the score no longer changes, and
    a count of zero or below costs nothing. *)
Theorem image_penalty_saturates (seo : SEO) (layout : Layout) (n m : Z) :
  n <= m ->
  score (calculateSEOScore (withImages m seo) layout)
  <= score (calculateSEOScore (withImages n seo) layout)
  /\ (5 <= n ->
      score (calculateSEOScore (withImages m seo) layout)
      = score (calculateSEOScore (withImages n seo) layout))
  /\ (n <= 0 ->
      score (calculateSEOScore (withImages n seo) layout)
      = score (calculateSEOScore (withImages 0 seo) layout)).
Proof.
  intros Hnm; rewrite !score_by_images.
  destruct (Z.gtb_spec n 0), (Z.gtb_spec m 0); simpl; repeat split; intros; lia.
Qed.

Lemma image_penalty_saturates_witness :
  score (calculateSEOScore (withImages 40 (analyzeSEO exampleEnv [])) (extractLayout exampleEnv []))
  = score (calculateSEOScore (withImages 5 (analyzeSEO exampleEnv [])) (extractLayout exampleEnv [])).
Proof.
  apply (proj1 (proj2 (image_penalty_saturates (analyzeSEO exampleEnv [])
                         (extractLayout exampleEnv []) 5 40 ltac:(lia)))).
  lia.
Defined.

(* ----------------------------------------------------------------- *)
(** ** More on the accessibility checker *)

(** X6: the accessibility checker returns the empty list exactly when
    the root element has a non-empty lang attribute, every image has an
    alt attribute, every link has an href attribute and no heading is more
    than one level below the heading before it. *)
Theorem accessibility_clean_iff (doc : document) :
  checkAccessibility doc = [] <->
  truthy (attrOfFirst (selectTag doc "html") "lang") = true
  /\ selectTagWithout doc "img" "alt" = []
  /\ selectTagWithout doc "a" "href" = []
  /\ (forall i, ~ jumpAt (headingOrder doc) i).
Proof.
  rewrite checkAccessibility_entries.
  assert (Hlen : forall l : list element,
            (Z.of_nat (length l) >? 0) = false <-> l = []).
  { intros l; destruct l; simpl; split; intros H;
      [reflexivity|reflexivity|discriminate|discriminate]. }
  assert (Hj : skippedHeading (headingOrder doc) = false
               <-> forall i, ~ jumpAt (headingOrder doc) i).
  { split.
    - intros H i Hi.
      assert (skippedHeading (headingOrder doc) = true)
        by (apply skippedHeading_spec; now exists i).
      congruence.
    - intros H; destruct (skippedHeading (headingOrder doc)) eqn:E;
        [|reflexivity].
      apply skippedHeading_spec in E as (i & Hi); now apply H in Hi. }
  rewrite <- Hj, <- !Hlen; unfold entry.
  destruct (truthy _), (_ >? 0), (_ >? 0), (skippedHeading _); simpl;
    split; intros H; try discriminate; try tauto;
    decompose [and] H; discriminate.
Qed.

Lemma pairwiseJump_spec (h : list Z) :
  pairwiseJump h = true <-> exists i, jumpAt h i.
Proof.
  unfold jumpAt; induction h as [|a [|b t] IH].
  - simpl; split; [discriminate|]. intros (i & Hi & _); simpl in Hi; lia.
  - simpl; split; [discriminate|]. intros (i & Hi & _); simpl in Hi; lia.
  - change (pairwiseJump (a :: b :: t))
      with ((b - a >? 1) || pairwiseJump (b :: t)).
    rewrite orb_true_iff, IH; split.
    + intros [H|(i & Hi & Hjump)].
      * exists 1%nat; simpl; split; [lia|]. apply Z.gtb_lt in H; lia.
      * exists (S i); split; [simpl in *; lia|].
        destruct i as [|i]; [lia|].
        simpl in Hjump |- *; rewrite Nat.sub_0_r in *; exact Hjump.
    + intros (i & Hi & Hjump).
      destruct i as [|[|i]]; [lia| |].
      * left; simpl in Hjump; apply Z.gtb_lt; lia.
      * right; exists (S i); split; [simpl in *; lia|].
        simpl in Hjump |- *; rewrite Nat.sub_0_r in *; exact Hjump.
Qed.

(** X7: the indexed loop over the headings compares each heading with
    the one before it and nothing else: it is the pairwise scan. A single
    heading is never reported, whatever its level, and the level of the
    first heading of a document is not constrained. *)
Theorem skippedHeading_pairwise (h : list Z) :
  skippedHeading h = pairwiseJump h
  /\ (forall a, skippedHeading [a] = false)
  /\ (forall a b t,
        skippedHeading (a :: b :: t)
        = (b - a >? 1) || skippedHeading (b :: t)).
Proof.
  assert (E : forall l, skippedHeading l = pairwiseJump l).
  { intros l; apply eq_true_iff_eq.
    rewrite skippedHeading_spec, pairwiseJump_spec; reflexivity. }
  split; [apply E|]. split.
  - intros a; reflexivity.
  - intros a b t; rewrite !E; reflexivity.
Qed.

(* ----------------------------------------------------------------- *)
(** ** Error classification *)

(** X8: how the [catch] block classifies an error. A message with the
    text [timeout] is a timeout error, before any other test; the test for
    [Navigation timeout] adds nothing to it. A message with none of the
    four markers keeps its own text under the general error type. The
    error of a failed navigation is classified from a message that holds
    the URL, so a URL with the text [timeout] in it makes the failure a
    timeout error, with the general timeout text as user message. *)
Theorem classifyError_cases (msg : string) :
  (includes msg "timeout" = true ->
   classifyError msg = ("Timeout Error", timeoutMessage))
  /\ (includes msg "Navigation timeout" = true -> includes msg "timeout" = true)
  /\ (includes msg "timeout" = false ->
      includes msg "net::ERR_NAME_NOT_RESOLVED" = false ->
      includes msg "net::ERR_CONNECTION_REFUSED" = false ->
      includes msg "net::ERR_CERT" = false ->
      classifyError msg = ("Failed to analyze website", msg))
  /\ (forall u, includes u "timeout" = true ->
        classifyError (unableToLoad u) = ("Timeout Error", timeoutMessage)).
Proof.
  assert (Hnav : includes msg "Navigation timeout" = true ->
                 includes msg "timeout" = true).
  { intros H; apply (includes_trans _ _ _ H); reflexivity. }
  assert (Ht : forall m, includes m "timeout" = true ->
               classifyError m = ("Timeout Error", timeoutMessage)).
  { intros m H; unfold classifyError; rewrite H, orb_true_r; reflexivity. }
  split; [apply Ht|]. split; [exact Hnav|]. split.
  - intros H1 H2 H3 H4; unfold classifyError.
    destruct (includes msg "Navigation timeout") eqn:E;
      [specialize (Hnav eq_refl); congruence|].
    rewrite H1, H2, H3, H4; reflexivity.
  - intros u Hu; apply Ht.
    unfold unableToLoad; now apply includes_append.
Qed.

Lemma classifyError_cases_witness :
  classifyError (unableToLoad "https://docs.example.com/timeouts")
  = ("Timeout Error", timeoutMessage).
Proof.
  apply (proj2 (proj2 (proj2 (classifyError_cases EmptyString)))).
  reflexivity.
Defined.

(* ----------------------------------------------------------------- *)
(** ** More on the handler *)

(** X9: a request without a URL, or with the empty string, opens no page
    and navigates nowhere. The browser is launched before the URL is
    looked at: with a browser the answer is 400 and nothing else happens;
    without one the launch is attempted, and the answer is 400 when it
    resolves and 500, with the launch error, when it rejects. *)
Theorem missing_url_answer (env : Env) (req : Request) (st : State) :
  truthy (targetUrl req) = false ->
  let r := fst (analyze env req st) in
  let st' := snd (analyze env req st) in
  let evs := newEvents st st' in
  r = Done tt
  /\ pagesOpened evs = [] /\ attempts evs = []
  /\ (browser st = true ->
      evs = [Respond 400]
      /\ sent st' = push (sent st) {| status := 400; body := UrlRequired |})
  /\ (browser st = false -> launches evs = 1%nat)
  /\ (browser st = false -> launchResult env = Done tt ->
      sent st' = push (sent st) {| status := 400; body := UrlRequired |}
      /\ browser st' = true)
  /\ (forall e, browser st = false -> launchResult env = Raise e ->
      sent st' = push (sent st) (failureResponse e)
      /\ browser st' = false).
Proof.
  intros Hurl.
  destruct (analyze env req st) as [r st'] eqn:H.
  destruct st as [b ops pg ls cc tr sn]; unfold_run H.
  rewrite Hurl in H; case_run H.
  all: path_events H.
  all: cbn [browser]; repeat split; intros;
       try solve [ reflexivity | discriminate | congruence ].
  all: match goal with
       | Hx : Raise _ = Raise _ |- _ => injection Hx as <-; reflexivity
       end.
Qed.

Lemma missing_url_answer_witness :
  sent (snd (analyze exampleEnv {| targetUrl := None; quickMode := false |}
               initialState))
  = [{| status := 400; body := UrlRequired |}].
Proof.
  exact (proj1 (proj1 (proj2 (proj2 (proj2 (proj2 (proj2
           (missing_url_answer exampleEnv
              {| targetUrl := None; quickMode := false |} initialState
              eq_refl)))))) eq_refl eq_refl)).
Defined.

(** X10: once a page is open and one strategy has loaded it, the answer
    is decided by the first rejection among screenshot, content, script
    query and performance query, in this order. If one rejects, the answer
    is 500 with that error and no report at all; a rejected screenshot
    stops the run before the content is read. If none rejects, the answer
    is 200 with the report built from the results of the extractors, the
    score and the issues being those of [calculateSEOScore] on the SEO and
    layout signals. The page is closed in both cases. *)
Theorem extraction_outcome (env : Env) (req : Request) (st : State)
    (raw : string) :
  targetUrl req = Some raw ->
  truthy (Some raw) = true ->
  browser st = true \/ launchResult env = Done tt ->
  newPageResult env = Done tt ->
  setUserAgentResult env = Done tt ->
  find (fun w => resolves (gotoResult env w)) strategyOrder <> None ->
  closeResult env 0 = Done tt ->
  let r := fst (analyze env req st) in
  let st' := snd (analyze env req st) in
  let evs := newEvents st st' in
  r = Done tt
  /\ openPages st' = openPages st
  /\ (forall e, extractionError env = Some e ->
        sent st' = push (sent st) (failureResponse e))
  /\ (forall e, screenshotResult env = Raise e -> pageCalls evs = [CScreenshot])
  /\ (forall shot html scripts perf,
        screenshotResult env = Done shot ->
        contentResult env = Done html ->
        scriptsResult env = Done scripts ->
        performanceResult env = Done perf ->
        let doc := cheerioLoad env html in
        let seoResult :=
          calculateSEOScore (analyzeSEO env doc) (extractLayout env doc) in
        sent st' =
        push (sent st)
          {| status := 200;
             body :=
               Analysis
                 {| url := normalizeUrl (urlParse env) raw;
                    screenshot := shot;
                    techStack :=
                      detectTechStack (generatorResult env) scripts html;
                    trackers := detectTrackers html;
                    layout := extractLayout env doc;
                    seo := {| seoSignal := analyzeSEO env doc;
                              seoScore := score seoResult;
                              seoIssues := issues seoResult |};
                    performance := perf;
                    accessibility := checkAccessibility doc;
                    security := checkSecurity env doc html;
                    meta :=
                      {| analyzedAt := isoNow env;
                         analysisTime :=
                           string_of_Z (endTime env - startTime env) ++ "ms" |}
                 |} |}).
Proof.
  intros Hraw Htruthy Hlaunch Hnew Hua Hnav Hclose.
  destruct (analyze env req st) as [r st'] eqn:H.
  destruct st as [b ops pg ls cc tr sn]; unfold_run H.
  rewrite ?Hraw, ?Htruthy, ?Hnew, ?Hua in H.
  destruct Hlaunch as [Hb|Hl];
    [simpl in Hb; subst b | rewrite ?Hl in H]; case_run H.
  all: try congruence.
  all: try (exfalso; apply Hnav; cbn;
            repeat match goal with
                   | Hx : gotoResult _ _ = _ |- _ => rewrite Hx
                   end; reflexivity).
  all: path_events H; unfold extractionError, failureResponse.
  all: repeat match goal with
              | Hx : ?f ?en = _ |- context [?f ?en] => rewrite Hx
              end.
  all: repeat split; intros;
       try solve [ reflexivity | discriminate | congruence
                 | apply remove_pushed, freshPage_fresh ].
  all: repeat match goal with
              | Hx : Done _ = Done _ |- _ => injection Hx as <-
              | Hx : Some _ = Some _ |- _ => injection Hx as <-
              end; reflexivity.
Qed.

Lemma extraction_outcome_witness :
  exists report,
    sent (snd (analyze exampleEnv exampleRequest initialState))
    = [{| status := 200; body := Analysis report |}]
    /\ seoScore (seo report) = 60.
Proof.
  pose proof (extraction_outcome exampleEnv exampleRequest initialState
                "http://example.com" eq_refl eq_refl (or_intror eq_refl)
                eq_refl eq_refl ltac:(discriminate) eq_refl)
    as (_ & _ & _ & _ & H).
  specialize (H _ _ _ _ eq_refl eq_refl eq_refl eq_refl).
  eexists; split; [exact H|reflexivity].
Defined.

(** What every run of the handler does with the browser, the navigation
    and the response, whatever the platform calls do. *)
Lemma run_facts (env : Env) (req : Request) (st : State) :
  let st' := snd (analyze env req st) in
  let evs := newEvents st st' in
  let u := normalizeUrl (urlParse env)
             (match targetUrl req with Some raw => raw | None => EmptyString end) in
  let t := if quickMode req then 30000 else 60000 in
  let d := if quickMode req then 1000 else 3000 in
  Forall (fun x => x = (u, t)) (gotoTargets evs)
  /\ (length (gotoTargets evs) <= 3)%nat
  /\ delaysOf evs = match strategyUsed evs with Some _ => [d] | None => [] end
  /\ launches evs = (if browser st then 0 else 1)%nat
  /\ browser st' = browser st || resolves (launchResult env)
  /\ (length (sent st') <= S (length (sent st)))%nat
  /\ (forall e, browser st = false -> launchResult env = Raise e ->
        sent st' = push (sent st) (failureResponse e)
        /\ pagesOpened evs = []).
Proof.
  destruct (analyze env req st) as [r st'] eqn:H.
  destruct st as [b ops pg ls cc tr sn]; unfold_run H; case_run H.
  all: path_events H; unfold failureResponse.
  all: repeat match goal with
              | Hx : launchResult _ = _ |- context [launchResult _] =>
                  rewrite Hx
              end.
  all: cbn [gotoTargets delaysOf launches flat_map app filter length
            strategyUsed attempts snd fst browser sent orb resolves
            pagesOpened].
  all: repeat split; intros;
       try solve [ reflexivity | discriminate | lia
                 | repeat constructor
                 | unfold push; rewrite length_app; simpl; lia ].
  all: match goal with
       | Hx : Raise _ = Raise _ |- _ => injection Hx as <-; reflexivity
       end.
Qed.

(** X11: in every run, each navigation attempt goes to the normalized
    URL with the whole timeout of the mode, 30 seconds in quick mode and
    60 otherwise; there are at most three attempts; and the settle delay,
    1 second in quick mode and 3 otherwise, is waited once when a strategy
    resolved and not at all when none did. *)
Theorem navigation_budget (env : Env) (req : Request) (st : State) :
  let evs := newEvents st (snd (analyze env req st)) in
  let u := normalizeUrl (urlParse env)
             (match targetUrl req with Some raw => raw | None => EmptyString end) in
  Forall (fun x => x = (u, if quickMode req then 30000 else 60000))
         (gotoTargets evs)
  /\ (length (gotoTargets evs) <= 3)%nat
  /\ delaysOf evs =
     match strategyUsed evs with
     | Some _ => [if quickMode req then 1000 else 3000]
     | None => []
     end.
Proof.
  pose proof (run_facts env req st) as (H1 & H2 & H3 & _).
  repeat split; assumption.
Qed.

(** X12: a run launches the browser once when there is none and never
    when there is one; the browser handle is set afterwards exactly when
    it was set before or the launch resolved. A rejected launch is
    answered with 500 and opens no page. At most one response is sent in a
    run, and a later run on a state with a browser does not launch
    again. *)
Theorem browser_launched_once (env : Env) (req : Request) (st : State) :
  let st' := snd (analyze env req st) in
  let evs := newEvents st st' in
  launches evs = (if browser st then 0 else 1)%nat
  /\ browser st' = browser st || resolves (launchResult env)
  /\ (length (sent st') <= S (length (sent st)))%nat
  /\ (forall e, browser st = false -> launchResult env = Raise e ->
        sent st' = push (sent st) (failureResponse e)
        /\ pagesOpened evs = [])
  /\ (forall env2 req2,
        browser st' = true ->
        launches (newEvents st' (snd (analyze env2 req2 st'))) = 0%nat).
Proof.
  pose proof (run_facts env req st) as (_ & _ & _ & H4 & H5 & H6 & H7).
  split; [exact H4|]. split; [exact H5|]. split; [exact H6|].
  split; [exact H7|].
  intros env2 req2 Hb.
  pose proof (run_facts env2 req2 (snd (analyze env req st)))
    as (_ & _ & _ & H & _).
  rewrite Hb in H; exact H.
Qed.

Lemma browser_launched_once_witness :
  launches
    (newEvents (snd (analyze exampleEnv exampleRequest initialState))
       (snd (analyze (withGoto exampleEnv blocked) exampleRequest
               (snd (analyze exampleEnv exampleRequest initialState)))))
  = 0%nat.
Proof.
  apply (proj2 (proj2 (proj2 (proj2
           (browser_launched_once exampleEnv exampleRequest initialState))))).
  reflexivity.
Defined.

(* ----------------------------------------------------------------- *)
(** ** The client: scan history *)

Lemma capped_firstn (h : list HistoryEntry) :
  (if (MAX_HISTORY <? length h)%nat then firstn MAX_HISTORY h else h)
  = firstn MAX_HISTORY h.
Proof.
  destruct (Nat.ltb_spec MAX_HISTORY (length h)); [reflexivity|].
  symmetry; now apply firstn_all2.
Qed.

(** X14: saving a scan to a history puts the new entry first, keeps at
    most the 49 newest of the entries that were there, so never more than
    50 in all, and stores the scan without its screenshot. When the
    storage refuses the new value, it keeps the old one. *)
Theorem saveToHistory_capped (fits : list HistoryEntry -> bool) (now : Z)
    (data : ScanData) (s : stored) (h : list HistoryEntry) :
  getHistory s = Arr h ->
  let entry := historyEntry now data in
  let saved := firstn 50 (entry :: h) in
  saveToHistory fits now data s = (if fits saved then HistoryItem saved else s)
  /\ (length saved <= 50)%nat
  /\ saved = entry :: firstn 49 h
  /\ scanScreenshot (fullData entry) = None.
Proof.
  intros Hs entry saved; unfold saveToHistory; rewrite Hs.
  cbv zeta; rewrite capped_firstn.
  repeat split.
  apply firstn_le_length.
Qed.

Lemma saveToHistory_capped_witness :
  saveToHistory unlimited 1704067200000 exampleScan NoItem
  = HistoryItem [historyEntry 1704067200000 exampleScan].
Proof.
  exact (proj1 (saveToHistory_capped unlimited 1704067200000 exampleScan
                  NoItem [] eq_refl)).
Defined.

Lemma saveToHistory_history (fits : list HistoryEntry -> bool) (now : Z)
    (data : ScanData) (s : stored) :
  saveToHistory fits now data s = s
  \/ (exists h, getHistory s = Arr h
      /\ saveToHistory fits now data s
         = HistoryItem (historyEntry now data :: firstn 49 h)).
Proof.
  destruct (getHistory s) as [h|] eqn:Hs.
  - destruct (saveToHistory_capped fits now data s h Hs) as (E & _ & E' & _).
    rewrite E, E'; destruct (fits _); [right; now exists h|now left].
  - left; unfold saveToHistory; now rewrite Hs.
Qed.

Lemma deleteFromHistory_history (fits : list HistoryEntry -> bool) (id : Z)
    (s : stored) :
  deleteFromHistory fits id s = s
  \/ (exists h, getHistory s = Arr h
      /\ deleteFromHistory fits id s
         = HistoryItem (filter (fun entry => negb (entryId entry =? id)) h)).
Proof.
  unfold deleteFromHistory; destruct (getHistory s) as [h|] eqn:Hs.
  - cbv zeta; destruct (fits _); [right; now exists h|now left].
  - now left.
Qed.

(** X15: a history that holds at most 50 entries, none with a
    screenshot, still does after any sequence of saves, deletions and
    clearings. *)
Theorem history_invariant (fits : list HistoryEntry -> bool)
    (ops : list historyOp) (s : stored) :
  (length (historyOf s) <= 50)%nat ->
  Forall (fun e => scanScreenshot (fullData e) = None) (historyOf s) ->
  (length (historyOf (applyOps fits ops s)) <= 50)%nat
  /\ Forall (fun e => scanScreenshot (fullData e) = None)
            (historyOf (applyOps fits ops s)).
Proof.
  unfold applyOps; revert s; induction ops as [|o ops IH]; intros s Hlen Hall;
    simpl; [split; assumption|].
  destruct o as [now data|id|[|]]; simpl; apply IH; try assumption.
  - destruct (saveToHistory_history fits now data s) as [->|(h & Hs & ->)];
      [assumption|].
    change (S (length (firstn 49 h)) <= 50)%nat.
    pose proof (firstn_le_length 49 h); lia.
  - destruct (saveToHistory_history fits now data s) as [->|(h & Hs & ->)];
      [assumption|].
    unfold historyOf in *; rewrite Hs in Hall.
    change (Forall (fun e => scanScreenshot (fullData e) = None)
              (historyEntry now data :: firstn 49 h)).
    constructor; [reflexivity|].
    apply Forall_forall; intros e He.
    rewrite Forall_forall in Hall; apply Hall.
    rewrite <- (firstn_skipn 49 h); apply in_or_app; now left.
  - destruct (deleteFromHistory_history fits id s) as [->|(h & Hs & ->)];
      [assumption|].
    unfold historyOf in *; rewrite Hs in Hlen; simpl.
    etransitivity; [apply filter_length_le|exact Hlen].
  - destruct (deleteFromHistory_history fits id s) as [->|(h & Hs & ->)];
      [assumption|].
    unfold historyOf in *; rewrite Hs in Hall; simpl.
    apply Forall_forall; intros e He; apply filter_In in He as [He _].
    rewrite Forall_forall in Hall; now apply Hall.
  - simpl; lia.
  - constructor.
Qed.

Lemma history_invariant_witness :
  (length (historyOf (applyOps unlimited
                        [Save 1 exampleScan; Save 2 exampleScan; Delete 1]
                        NoItem)) <= 50)%nat.
Proof.
  apply (history_invariant unlimited
           [Save 1 exampleScan; Save 2 exampleScan; Delete 1] NoItem);
    [simpl; lia | constructor].
Defined.

(** X16: when the stored value is JSON that is not an array, saves and
    deletions leave it as it is and nothing can be loaded from it, however
    many of them follow one another; a confirmed clearing is the way out,
    after which a saved scan can be loaded again. *)
Theorem history_not_an_array (fits : list HistoryEntry -> bool)
    (ops : list historyOp) (s : stored) (id : Z) :
  getHistory s = NotArr ->
  forallb (fun o => negb (isConfirmedClear o)) ops = true ->
  applyOps fits ops s = s
  /\ loadFromHistory id (applyOps fits ops s) = None
  /\ (forall now data,
        loadFromHistory now
          (saveToHistory fits now data (clearHistory true s))
        = if fits [historyEntry now data]
          then Some (withoutScreenshot data) else None).
Proof.
  intros Hs Hops.
  assert (E : applyOps fits ops s = s).
  { unfold applyOps; induction ops as [|o ops IH]; [reflexivity|].
    simpl in Hops |- *; apply andb_true_iff in Hops as [Ho Hops].
    assert (Eo : applyOp fits s o = s).
    { destruct o as [now data|i|[|]]; simpl in *;
        unfold saveToHistory, deleteFromHistory; rewrite ?Hs;
        reflexivity || discriminate. }
    rewrite Eo; now apply IH. }
  rewrite E; split; [reflexivity|split].
  - unfold loadFromHistory; now rewrite Hs.
  - intros now data; unfold clearHistory, saveToHistory, loadFromHistory; simpl.
    destruct (fits _); simpl; [now rewrite Z.eqb_refl|reflexivity].
Qed.

Lemma history_not_an_array_witness :
  applyOps unlimited [Save 1 exampleScan; Delete 1; Clear false] NotAnArray
  = NotAnArray.
Proof.
  exact (proj1 (history_not_an_array unlimited
                  [Save 1 exampleScan; Delete 1; Clear false] NotAnArray 0
                  eq_refl eq_refl)).
Defined.

(** X17: a scan that was saved is loaded back by its identifier, without
    its screenshot; loading another identifier finds what the 49 newest
    older entries hold. *)
Theorem save_then_load (fits : list HistoryEntry -> bool) (now : Z)
    (data : ScanData) (s : stored) (h : list HistoryEntry) :
  getHistory s = Arr h ->
  fits (firstn 50 (historyEntry now data :: h)) = true ->
  loadFromHistory now (saveToHistory fits now data s)
  = Some (withoutScreenshot data)
  /\ (forall id, id <> now ->
        loadFromHistory id (saveToHistory fits now data s)
        = match find (fun e => entryId e =? id) (firstn 49 h) with
          | Some e => Some (fullData e)
          | None => None
          end).
Proof.
  intros Hs Hfits.
  destruct (saveToHistory_capped fits now data s h Hs) as (E & _ & E' & _).
  rewrite Hfits in E; rewrite E, E'; unfold loadFromHistory; simpl.
  split.
  - now rewrite Z.eqb_refl.
  - intros id Hid.
    destruct (Z.eqb_spec now id) as [->|_]; [congruence|reflexivity].
Qed.

Lemma save_then_load_witness :
  loadFromHistory 1704067200000
    (saveToHistory unlimited 1704067200000 exampleScan NoItem)
  = Some (withoutScreenshot exampleScan).
Proof.
  exact (proj1 (save_then_load unlimited 1704067200000 exampleScan NoItem []
                  eq_refl eq_refl)).
Defined.

Lemma find_filter_other (id id' : Z) (h : list HistoryEntry) :
  id' <> id ->
  find (fun e => entryId e =? id')
       (filter (fun entry => negb (entryId entry =? id)) h)
  = find (fun e => entryId e =? id') h.
Proof.
  intros Hne; induction h as [|e h IH]; simpl; [reflexivity|].
  destruct (Z.eqb_spec (entryId e) id) as [E|E]; simpl.
  - destruct (Z.eqb_spec (entryId e) id'); [congruence|exact IH].
  - destruct (entryId e =? id'); [reflexivity|exact IH].
Qed.

Lemma find_filter_self (id : Z) (h : list HistoryEntry) :
  find (fun e => entryId e =? id)
       (filter (fun entry => negb (entryId entry =? id)) h) = None.
Proof.
  induction h as [|e h IH]; simpl; [reflexivity|].
  destruct (entryId e =? id) eqn:E; simpl; [exact IH|].
  now rewrite E.
Qed.

Lemma filter_twice {A : Type} (p : A -> bool) (l : list A) :
  filter p (filter p l) = filter p l.
Proof.
  induction l as [|x l IH]; simpl; [reflexivity|].
  destruct (p x) eqn:E; simpl; [rewrite E; f_equal|]; exact IH.
Qed.

(** X18: deleting an identifier removes every entry that has it and no
    other: it cannot be loaded afterwards, every other identifier loads
    what it loaded before, and deleting it again changes nothing. *)
Theorem delete_then_load (fits : list HistoryEntry -> bool) (id : Z)
    (s : stored) (h : list HistoryEntry) :
  getHistory s = Arr h ->
  fits (filter (fun entry => negb (entryId entry =? id)) h) = true ->
  let s' := deleteFromHistory fits id s in
  s' = HistoryItem (filter (fun entry => negb (entryId entry =? id)) h)
  /\ loadFromHistory id s' = None
  /\ (forall id', id' <> id -> loadFromHistory id' s' = loadFromHistory id' s)
  /\ deleteFromHistory fits id s' = s'.
Proof.
  intros Hs Hfits s'.
  assert (E : s' = HistoryItem
                     (filter (fun entry => negb (entryId entry =? id)) h)).
  { unfold s', deleteFromHistory; rewrite Hs; cbv zeta; now rewrite Hfits. }
  split; [exact E|]. rewrite E. split; [|split].
  - unfold loadFromHistory; simpl; now rewrite find_filter_self.
  - intros id' Hne; unfold loadFromHistory; rewrite Hs; simpl.
    now rewrite find_filter_other.
  - unfold deleteFromHistory; simpl.
    rewrite filter_twice, Hfits; reflexivity.
Qed.

Lemma delete_then_load_witness :
  loadFromHistory 1704067200000
    (deleteFromHistory unlimited 1704067200000
       (saveToHistory unlimited 1704067200000 exampleScan NoItem))
  = None.
Proof.
  exact (proj1 (proj2 (delete_then_load unlimited 1704067200000
                         (saveToHistory unlimited 1704067200000 exampleScan NoItem)
                         [historyEntry 1704067200000 exampleScan]
                         eq_refl eq_refl))).
Defined.

(* ----------------------------------------------------------------- *)
(** ** The client: comparison *)

(** X19: the selection for a comparison never grows beyond two scans.
    Checking a scan puts it last; when two were selected, the older of the
    two is dropped. Unchecking a scan removes it and keeps the others. *)
Theorem compare_selection_bounded (checked : bool) (id : Z) (sel : list Z) :
  (length sel <= 2)%nat ->
  (length (handleCompareSelection checked id sel) <= 2)%nat
  /\ (checked = true ->
      last (handleCompareSelection checked id sel) 0 = id
      /\ (forall a b, sel = [a; b] ->
            handleCompareSelection checked id sel = [b; id])
      /\ ((length sel < 2)%nat ->
          handleCompareSelection checked id sel = (sel ++ [id])%list))
  /\ (checked = false ->
      ~ In id (handleCompareSelection checked id sel)
      /\ forall i, i <> id ->
           (In i (handleCompareSelection checked id sel) <-> In i sel)).
Proof.
  intros Hlen; unfold handleCompareSelection, push.
  destruct checked.
  - destruct sel as [|a [|b [|c sel]]]; simpl in *; try lia;
      repeat split; intros; try discriminate; try reflexivity; try lia.
    congruence.
  - split; [|split; [discriminate|intros _; split]].
    + etransitivity; [apply filter_length_le|exact Hlen].
    + intros Hin; apply filter_In in Hin as [_ Hin].
      now rewrite Z.eqb_refl in Hin.
    + intros i Hne; rewrite filter_In.
      destruct (Z.eqb_spec i id); [congruence|simpl; tauto].
Qed.

Lemma compare_selection_bounded_witness :
  handleCompareSelection true 3 [1; 2] = [2; 3].
Proof.
  exact (proj1 (proj2 (proj1 (proj2 (compare_selection_bounded true 3 [1; 2]
                                       ltac:(simpl; lia))) eq_refl))
           1 2 eq_refl).
Defined.

(** The comparisons of a pair of scans, each read once. *)
Ltac by_comparisons scan1 scan2 :=
  unfold determineWinner, Z.gtb, Z.ltb;
  rewrite ?(Z.compare_antisym (seoOf scan1) (seoOf scan2)),
          ?(Z.compare_antisym (loadTimeOf scan1) (loadTimeOf scan2)),
          ?(Z.compare_antisym (accessibilityOf scan1) (accessibilityOf scan2)),
          ?(Z.compare_antisym (numberOf (performanceOf scan1))
                              (numberOf (performanceOf scan2))).

(** X20: the winner of a comparison does not depend on the side a scan
    is on: swapping the scans swaps the winner, and a scan ties with
    itself. A scan that is at least as good on every score is never the
    loser, and it wins when its SEO score is higher. *)
Theorem determineWinner_swap (scan1 scan2 : Scores) :
  determineWinner scan2 scan1 = swapWinner (determineWinner scan1 scan2)
  /\ determineWinner scan1 scan1 = Tie
  /\ (seoOf scan2 <= seoOf scan1 ->
      loadTimeOf scan1 <= loadTimeOf scan2 ->
      accessibilityOf scan1 <= accessibilityOf scan2 ->
      numberOf (performanceOf scan2) <= numberOf (performanceOf scan1) ->
      determineWinner scan1 scan2 <> WinnerB)
  /\ (seoOf scan2 < seoOf scan1 ->
      loadTimeOf scan1 <= loadTimeOf scan2 ->
      accessibilityOf scan1 <= accessibilityOf scan2 ->
      numberOf (performanceOf scan2) <= numberOf (performanceOf scan1) ->
      determineWinner scan1 scan2 = WinnerA).
Proof.
  split; [|split; [|split]].
  - by_comparisons scan1 scan2.
    rewrite (andb_comm (truthyNumber (performanceOf scan2))).
    destruct (truthyNumber (performanceOf scan1)
              && truthyNumber (performanceOf scan2)),
      (seoOf scan1 ?= seoOf scan2),
      (loadTimeOf scan1 ?= loadTimeOf scan2),
      (accessibilityOf scan1 ?= accessibilityOf scan2),
      (numberOf (performanceOf scan1) ?= numberOf (performanceOf scan2));
      reflexivity.
  - unfold determineWinner, Z.gtb, Z.ltb; rewrite !Z.compare_refl.
    destruct (truthyNumber (performanceOf scan1)); reflexivity.
  - intros H1 H2 H3 H4.
    apply Z.compare_ge_iff in H1. apply Z.compare_le_iff in H2, H3.
    apply Z.compare_ge_iff in H4.
    by_comparisons scan1 scan2.
    destruct (truthyNumber (performanceOf scan1)
              && truthyNumber (performanceOf scan2)),
      (seoOf scan1 ?= seoOf scan2),
      (loadTimeOf scan1 ?= loadTimeOf scan2),
      (accessibilityOf scan1 ?= accessibilityOf scan2),
      (numberOf (performanceOf scan1) ?= numberOf (performanceOf scan2));
      try congruence; simpl; discriminate.
  - intros H1 H2 H3 H4.
    apply Z.compare_gt_iff in H1. apply Z.compare_le_iff in H2, H3.
    apply Z.compare_ge_iff in H4.
    by_comparisons scan1 scan2; rewrite H1.
    destruct (truthyNumber (performanceOf scan1)
              && truthyNumber (performanceOf scan2)),
      (loadTimeOf scan1 ?= loadTimeOf scan2),
      (accessibilityOf scan1 ?= accessibilityOf scan2),
      (numberOf (performanceOf scan1) ?= numberOf (performanceOf scan2));
      try congruence; reflexivity.
Qed.

Lemma determineWinner_swap_witness :
  determineWinner
    {| seoOf := 80; loadTimeOf := 900; accessibilityOf := 1; securityOf := 2;
       lighthouseOf := None |}
    {| seoOf := 60; loadTimeOf := 1200; accessibilityOf := 1; securityOf := 0;
       lighthouseOf := None |}
  = WinnerA.
Proof.
  apply (proj2 (proj2 (proj2 (determineWinner_swap
           {| seoOf := 80; loadTimeOf := 900; accessibilityOf := 1;
              securityOf := 2; lighthouseOf := None |}
           {| seoOf := 60; loadTimeOf := 1200; accessibilityOf := 1;
              securityOf := 0; lighthouseOf := None |}))));
    simpl; lia.
Defined.

(* ----------------------------------------------------------------- *)
(** ** More on the URL normalizer *)

(** X13: when the URL constructor throws, the normalizer prefixes the
    input with [https://]. When it parses the input with a special scheme
    and a host, the result is the URL with the scheme [https], the port
    dropped when it is 443 and kept otherwise, and host, credentials,
    path, query and fragment unchanged; it begins with [https://]. *)
Theorem normalizeUrl_forces_https (parse : string -> option URL)
    (input : string) :
  (parse input = None -> normalizeUrl parse input = "https://" ++ input)
  /\ (forall u h,
        parse input = Some u ->
        isSpecial (scheme u) = true ->
        host u = Some h ->
        ((scheme u =? "file")%string && (h =? EmptyString)%string) = false ->
        normalizeUrl parse input
        = href (withScheme u "https"
                  (if optZ_eqb (port u) (Some 443) then None else port u))
        /\ startsWith (normalizeUrl parse input) "https://" = true).
Proof.
  split.
  - intros H; exact (proj1 (normalizeUrl_parse_failure parse input H)).
  - intros u h Hp Hs Hh Hf; split;
      [|exact (normalizeUrl_special parse input u h Hp Hs Hh Hf)].
    unfold normalizeUrl; rewrite Hp; f_equal.
    unfold setProtocol.
    change (schemeStartState (removeTabNewline ("https:" ++ ":")))
      with (Some "https").
    cbv beta iota.
    change (isSpecial "https") with true.
    change ("https" =? "file")%string with false.
    rewrite Hs, Hh, Hf; simpl; rewrite !andb_false_r; reflexivity.
Qed.

Lemma normalizeUrl_forces_https_witness :
  normalizeUrl (fun _ => Some (hostURL "http" "example.com" (Some 443)
                                 ["a"; "b"]))
    "http://example.com:443/a/b"
  = "https://example.com/a/b".
Proof.
  exact (proj1 (proj2 (normalizeUrl_forces_https
                         (fun _ => Some (hostURL "http" "example.com"
                                           (Some 443) ["a"; "b"]))
                         "http://example.com:443/a/b")
                  _ "example.com" eq_refl eq_refl eq_refl eq_refl)).
Defined.
